(** * ip-watcher: the fetch-with-retry routine and the change-detection step

    A shallow embedding of [main.go] (package [main] of
    RonniSkansing/ip-watcher) and the properties of its two core functions,
    [fetchExternalIP] and [checkIP].

    Conventions of the embedding:
    - Go's [int] is modelled by [Z].  The only arithmetic of the Fetcher is
      [attempt+1], evaluated under the guard [attempt < maxAttempts], where it
      cannot leave the range of a machine integer ([attempt_succ_in_range]);
      the duration of the ticker is wrapped as Go wraps it.
    - Go's [string] and [[]byte] are modelled by [string] (a list of bytes).
    - Go's [error] is modelled by its [Error()] text: every error the program
      builds comes from [fmt.Errorf] without [%w], and every foreign error is
      only ever rendered with [%v].
    - The network is a deterministic script: the [n]-th GET request issued by
      the process to a URL gets the [n]-th scripted outcome.  The state threaded
      through [fetchExternalIP] is the number of requests issued so far.
    - The logging sink is the list of formatted messages handed to
      [log.Printf], oldest first (the date/time prefix the [log] package adds
      is not part of the message).
    - [json.Unmarshal] belongs to Go's standard library: the program is
      modelled, and its properties are proved, for an arbitrary decoder; a
      reference decoder serves to run the model on concrete bodies.
    - The mutex of [Config] is modelled by its state.  The program has one
      goroutine, so a [Lock] on a held mutex would never return. *)

From Equations Require Import Equations.
From Stdlib Require Import ZArith List String Ascii Bool Lia Arith.
From Stdlib Require Import DecimalString.
Import ListNotations.

Set Warnings "-register-all".

Local Open Scope string_scope.
Local Open Scope Z_scope.

(** ** Go runtime pieces used by the program *)

(** Go's [int] and [int64] on the 64-bit platforms the program is built
    for, and their wrap-around. *)
Definition MinInt : Z := - 2 ^ 63.
Definition MaxInt : Z := 2 ^ 63 - 1.
Definition wrapInt (z : Z) : Z := (z - MinInt) mod 2 ^ 64 + MinInt.

(** [time.Second], a [time.Duration]: a number of nanoseconds. *)
Definition Second : Z := 1000000000.

(** An [error] value, identified with the text of its [Error()] method. *)
Record error : Type := errorString { Error : string }.

(** Arguments of the [fmt] verbs the program uses. *)
Inductive any : Type :=
| Int (i : Z)
| Str (s : string)
| Err (e : error).

(** [%d] applied to an [int]: signed decimal. *)
Definition itoa (i : Z) : string := NilZero.string_of_int (Z.to_int i).

(** One operand under one verb.  The program only uses [%d] on integers,
    [%s] on strings and [%v] on errors; [%v] prints any operand in its
    default format, a mismatched verb prints Go's [%!verb(type=value)]. *)
Definition formatVerb (verb : ascii) (a : any) : string :=
  match a with
  | Int i =>
      if (Ascii.eqb verb "d" || Ascii.eqb verb "v")%bool then itoa i
      else "%!" ++ String verb ("(int=" ++ itoa i ++ ")")
  | Str s =>
      if (Ascii.eqb verb "s" || Ascii.eqb verb "v")%bool then s
      else "%!" ++ String verb ("(string=" ++ s ++ ")")
  | Err e =>
      if (Ascii.eqb verb "s" || Ascii.eqb verb "v")%bool then Error e
      else "%!" ++ String verb ("(*errors.errorString=" ++ Error e ++ ")")
  end.

(** [fmt.Sprintf] restricted to plain single-letter verbs. *)
Fixpoint Sprintf (format : string) (args : list any) : string :=
  match format with
  | EmptyString => EmptyString
  | String c rest =>
      if Ascii.eqb c "%" then
        match rest with
        | EmptyString => "%!(NOVERB)"
        | String verb rest' =>
            if Ascii.eqb verb "%" then String "%" (Sprintf rest' args)
            else match args with
                 | a :: args' => formatVerb verb a ++ Sprintf rest' args'
                 | [] => "%!" ++ String verb ("(MISSING)" ++ Sprintf rest' [])
                 end
        end
      else String c (Sprintf rest args)
  end.

(** [fmt.Errorf] without [%w]: an error whose text is the formatted string. *)
Definition Errorf (format : string) (args : list any) : error :=
  errorString (Sprintf format args).

(** [strings.Contains], as used by the repository's tests on error texts. *)
Fixpoint Contains (s substr : string) : bool :=
  if String.prefix substr s then true
  else match s with
       | EmptyString => false
       | String _ s' => Contains s' substr
       end.

(** ** The remote endpoint *)

(** What [http.Client.Get] hands back when it returns no error: the status
    code, and what [io.ReadAll(resp.Body)] will return when the body is read
    (the bytes, or the bytes read so far and an error). *)
Record Response : Type := mkResponse {
  StatusCode : Z;
  Body : string * option error
}.

(** The two results of [client.Get(endpoint)]: a transport-level error
    (including the 5 second client timeout), or a response. *)
Inductive GetResult : Type :=
| GetError (err : error)
| GetResponse (resp : Response).

(** Response from ipify API *)
Record IPifyResponse : Type := mkIPifyResponse { IP : string }.

(** ** A reference decoder for [encoding/json]

    The program hands the response body to [json.Unmarshal], which is part of
    Go's standard library and not of this repository; the Fetcher below is
    therefore parametric in the decoder.  This module gives one decoder to run
    the program on concrete bodies: it follows the documented behaviour of
    [json.Unmarshal] on a struct with the single field [IP string `json:"ip"`]
    (RFC 8259 syntax check of the whole input first, object keys matched
    case-insensitively, [null] leaves the field alone, a value of another
    JSON type is reported as an error after decoding the rest).  It departs
    from Go in two places: bytes above 0x7F inside string literals are copied
    as they are, where Go replaces ill-formed UTF-8 by U+FFFD; and the texts
    of the errors are coarser, which the program never looks at. *)
Module encoding_json.

Local Open Scope char_scope.

Inductive Value : Type :=
| Null
| Bool (b : bool)
| Number (literal : string)
| String_ (s : string)
| Array (elements : list Value)
| Object (members : list (string * Value)).

(** One item of a string literal: a byte, or a [\uXXXX] code unit. *)
Inductive unit16 : Type :=
| Byte (c : ascii)
| Unit (u : N).

Definition isSpace (c : ascii) : bool :=
  (Ascii.eqb c " " || Ascii.eqb c "009" || Ascii.eqb c "013" || Ascii.eqb c "010")%bool.

Fixpoint skipSpace (s : string) : string :=
  match s with
  | String c r => if isSpace c then skipSpace r else s
  | EmptyString => s
  end.

Definition isDigit (c : ascii) : bool :=
  ((48 <=? N_of_ascii c) && (N_of_ascii c <=? 57))%N%bool.

Definition hexVal (c : ascii) : option N :=
  let n := N_of_ascii c in
  if ((48 <=? n) && (n <=? 57))%N%bool then Some (n - 48)%N
  else if ((97 <=? n) && (n <=? 102))%N%bool then Some (n - 87)%N
  else if ((65 <=? n) && (n <=? 70))%N%bool then Some (n - 55)%N
  else None.

Definition getu4 (h1 h2 h3 h4 : ascii) : option N :=
  match hexVal h1, hexVal h2, hexVal h3, hexVal h4 with
  | Some a, Some b, Some c, Some d => Some (((a * 16 + b) * 16 + c) * 16 + d)%N
  | _, _, _, _ => None
  end.

(** The items of a string literal, read after its opening quote, and the
    input that follows the closing quote. *)
Fixpoint scanString (s : string) : option (list unit16 * string) :=
  match s with
  | EmptyString => None
  | String c r =>
      if Ascii.eqb c "034" then Some ([], r)
      else if Ascii.eqb c "\" then
        match r with
        | String e r' =>
            let simple (b : ascii) :=
              match scanString r' with
              | Some (us, rest) => Some (Byte b :: us, rest)
              | None => None
              end in
            if Ascii.eqb e "u" then
              match r' with
              | String h1 (String h2 (String h3 (String h4 r''))) =>
                  match getu4 h1 h2 h3 h4, scanString r'' with
                  | Some u, Some (us, rest) => Some (Unit u :: us, rest)
                  | _, _ => None
                  end
              | _ => None
              end
            else if (Ascii.eqb e "034" || Ascii.eqb e "\" || Ascii.eqb e "/")%bool then simple e
            else if Ascii.eqb e "b" then simple "008"
            else if Ascii.eqb e "f" then simple "012"
            else if Ascii.eqb e "n" then simple "010"
            else if Ascii.eqb e "r" then simple "013"
            else if Ascii.eqb e "t" then simple "009"
            else None
        | EmptyString => None
        end
      else if (N_of_ascii c <? 32)%N then None
      else match scanString r with
           | Some (us, rest) => Some (Byte c :: us, rest)
           | None => None
           end
  end.

(** UTF-8 encoding of a code point. *)
Definition encodeRune (r : N) : string :=
  let b (n : N) := ascii_of_N n in
  (if r <? 128 then String (b r) EmptyString
   else if r <? 2048 then
     String (b (192 + r / 64)) (String (b (128 + r mod 64)) EmptyString)
   else if r <? 65536 then
     String (b (224 + r / 4096))
       (String (b (128 + (r / 64) mod 64)) (String (b (128 + r mod 64)) EmptyString))
   else
     String (b (240 + r / 262144))
       (String (b (128 + (r / 4096) mod 64))
          (String (b (128 + (r / 64) mod 64)) (String (b (128 + r mod 64)) EmptyString))))%N.

Definition isHighSurrogate (u : N) : bool := ((55296 <=? u) && (u <? 56320))%N%bool.
Definition isLowSurrogate (u : N) : bool := ((56320 <=? u) && (u <? 57344))%N%bool.

(** The bytes a string literal stands for: surrogate pairs are combined, a
    lone surrogate becomes U+FFFD. *)
Fixpoint unquote (us : list unit16) : string :=
  match us with
  | [] => EmptyString
  | Byte c :: rest => String c (unquote rest)
  | Unit u :: rest =>
      if isHighSurrogate u then
        match rest with
        | Unit v :: rest' =>
            if isLowSurrogate v then
              (encodeRune (65536 + (u - 55296) * 1024 + (v - 56320)) ++ unquote rest')%string
            else (encodeRune 65533 ++ unquote rest)%string
        | _ => (encodeRune 65533 ++ unquote rest)%string
        end
      else if isLowSurrogate u then (encodeRune 65533 ++ unquote rest)%string
      else (encodeRune u ++ unquote rest)%string
  end.

(** The longest run of decimal digits at the front of the input. *)
Fixpoint digits (s : string) : string * string :=
  match s with
  | String c r =>
      if isDigit c then let '(d, rest) := digits r in (String c d, rest)
      else (EmptyString, s)
  | EmptyString => (EmptyString, s)
  end.

(** A number literal: an optional minus sign; then a single 0, or a
    non-zero digit and any digits; then, optionally, a point and at least
    one digit; then, optionally, e or E, a sign and at least one digit. *)
Definition scanNumber (s : string) : option (string * string) :=
  let '(sign, s) :=
    match s with
    | String c r => if Ascii.eqb c "-" then ("-"%string, r) else (EmptyString, s)
    | EmptyString => (EmptyString, s)
    end in
  let int :=
    match s with
    | String c r =>
        if Ascii.eqb c "0" then Some ("0"%string, r)
        else if isDigit c then let '(d, rest) := digits r in Some (String c d, rest)
        else None
    | EmptyString => None
    end in
  match int with
  | None => None
  | Some (i, s) =>
      let frac :=
        match s with
        | String c r =>
            if Ascii.eqb c "." then
              match digits r with
              | (EmptyString, _) => None
              | (d, rest) => Some (String "." d, rest)
              end
            else Some (EmptyString, s)
        | EmptyString => Some (EmptyString, s)
        end in
      match frac with
      | None => None
      | Some (f, s) =>
          let exp :=
            match s with
            | String c r =>
                if (Ascii.eqb c "e" || Ascii.eqb c "E")%bool then
                  let '(sg, r) :=
                    match r with
                    | String c' r' =>
                        if (Ascii.eqb c' "+" || Ascii.eqb c' "-")%bool
                        then (String c' EmptyString, r') else (EmptyString, r)
                    | EmptyString => (EmptyString, r)
                    end in
                  match digits r with
                  | (EmptyString, _) => None
                  | (d, rest) => Some ((String c sg ++ d)%string, rest)
                  end
                else Some (EmptyString, s)
            | EmptyString => Some (EmptyString, s)
            end in
          match exp with
          | None => None
          | Some (e, s) => Some ((sign ++ i ++ f ++ e)%string, s)
          end
      end
  end.

(** The input after [word], when the input starts with it. *)
Fixpoint literal (word s : string) : option string :=
  match word, s with
  | EmptyString, _ => Some s
  | String w word', String c s' => if Ascii.eqb w c then literal word' s' else None
  | String _ _, EmptyString => None
  end.

(** Arrays and objects may nest this deep and no deeper. *)
Definition maxNestingDepth : N := 10000.

(** One JSON value at the front of the input (no leading white space), and
    the input that follows it.  [depth] counts the enclosing arrays and
    objects; every call consumes input, so the length of the input is
    enough [fuel]. *)
Fixpoint parseValue (fuel : nat) (depth : N) (s : string) {struct fuel}
  : option (Value * string) :=
  match fuel with
  | O => None
  | S fuel =>
      match s with
      | EmptyString => None
      | String c r =>
          if Ascii.eqb c "{" then
            if (depth <? maxNestingDepth)%N then
              match skipSpace r with
              | String c' r' =>
                  if Ascii.eqb c' "}" then Some (Object [], r')
                  else match parseMembers fuel (depth + 1) (String c' r') with
                       | Some (ms, rest) => Some (Object ms, rest)
                       | None => None
                       end
              | EmptyString => None
              end
            else None
          else if Ascii.eqb c "[" then
            if (depth <? maxNestingDepth)%N then
              match skipSpace r with
              | String c' r' =>
                  if Ascii.eqb c' "]" then Some (Array [], r')
                  else match parseElements fuel (depth + 1) (String c' r') with
                       | Some (vs, rest) => Some (Array vs, rest)
                       | None => None
                       end
              | EmptyString => None
              end
            else None
          else if Ascii.eqb c "034" then
            match scanString r with
            | Some (us, rest) => Some (String_ (unquote us), rest)
            | None => None
            end
          else if Ascii.eqb c "t" then option_map (pair (Bool true)) (literal "rue" r)
          else if Ascii.eqb c "f" then option_map (pair (Bool false)) (literal "alse" r)
          else if Ascii.eqb c "n" then option_map (pair Null) (literal "ull" r)
          else match scanNumber s with
               | Some (n, rest) => Some (Number n, rest)
               | None => None
               end
      end
  end

(** The members of an object, from its first key to its closing brace. *)
with parseMembers (fuel : nat) (depth : N) (s : string) {struct fuel}
  : option (list (string * Value) * string) :=
  match fuel with
  | O => None
  | S fuel =>
      match s with
      | String c r =>
          if Ascii.eqb c "034" then
            match scanString r with
            | Some (key, r1) =>
                match skipSpace r1 with
                | String c1 r2 =>
                    if Ascii.eqb c1 ":" then
                      match parseValue fuel depth (skipSpace r2) with
                      | Some (v, r3) =>
                          match skipSpace r3 with
                          | String c2 r4 =>
                              if Ascii.eqb c2 "," then
                                match parseMembers fuel depth (skipSpace r4) with
                                | Some (ms, rest) => Some ((unquote key, v) :: ms, rest)
                                | None => None
                                end
                              else if Ascii.eqb c2 "}" then Some ([(unquote key, v)], r4)
                              else None
                          | EmptyString => None
                          end
                      | None => None
                      end
                    else None
                | EmptyString => None
                end
            | None => None
            end
          else None
      | EmptyString => None
      end
  end

(** The elements of an array, from its first element to its closing bracket. *)
with parseElements (fuel : nat) (depth : N) (s : string) {struct fuel}
  : option (list Value * string) :=
  match fuel with
  | O => None
  | S fuel =>
      match parseValue fuel depth s with
      | Some (v, r1) =>
          match skipSpace r1 with
          | String c r2 =>
              if Ascii.eqb c "," then
                match parseElements fuel depth (skipSpace r2) with
                | Some (vs, rest) => Some (v :: vs, rest)
                | None => None
                end
              else if Ascii.eqb c "]" then Some ([v], r2)
              else None
          | EmptyString => None
          end
      | None => None
      end
  end.

(** A whole document: one value between optional white space. *)
Definition parse (data : string) : option Value :=
  match parseValue (S (String.length data)) 0 (skipSpace data) with
  | Some (v, rest) =>
      match skipSpace rest with
      | EmptyString => Some v
      | String _ _ => None
      end
  | None => None
  end.

Definition toLower (c : ascii) : ascii :=
  let n := N_of_ascii c in
  if ((65 <=? n) && (n <=? 90))%N%bool then ascii_of_N (n + 32) else c.

(** Case-insensitive match of an object key with the field name [ip]. *)
Fixpoint equalFold (a b : string) : bool :=
  match a, b with
  | EmptyString, EmptyString => true
  | String x a', String y b' => (Ascii.eqb (toLower x) (toLower y) && equalFold a' b')%bool
  | _, _ => false
  end.

Definition typeError (what : string) : error :=
  errorString ("json: cannot unmarshal " ++ what
               ++ " into Go struct field IPifyResponse.ip of type string").

(** The first error met is the one reported. *)
Definition saveError (saved : option error) (e : error) : option error :=
  match saved with
  | Some _ => saved
  | None => Some e
  end.

(** Decoding of the members of an object into the struct, in order. *)
Fixpoint object (members : list (string * Value)) (v : IPifyResponse) (saved : option error)
  : IPifyResponse * option error :=
  match members with
  | [] => (v, saved)
  | (key, val) :: rest =>
      if equalFold key "ip" then
        match val with
        | String_ s => object rest (mkIPifyResponse s) saved
        | Null => object rest v saved
        | Bool _ => object rest v (saveError saved (typeError "bool"))
        | Number _ => object rest v (saveError saved (typeError "number"))
        | Array _ => object rest v (saveError saved (typeError "array"))
        | Object _ => object rest v (saveError saved (typeError "object"))
        end
      else object rest v saved
  end.

Definition topLevelError (what : string) : error :=
  errorString ("json: cannot unmarshal " ++ what ++ " into Go value of type main.IPifyResponse").

(** [json.Unmarshal(data, &v)] for [v : IPifyResponse]. *)
Definition Unmarshal (data : string) (v : IPifyResponse) : IPifyResponse * option error :=
  match parse data with
  | None => (v, Some (errorString "json: syntax error"))
  | Some Null => (v, None)
  | Some (Object members) => object members v None
  | Some (Bool _) => (v, Some (topLevelError "bool"))
  | Some (Number _) => (v, Some (topLevelError "number"))
  | Some (String_ _) => (v, Some (topLevelError "string"))
  | Some (Array _) => (v, Some (topLevelError "array"))
  end.

End encoding_json.

(** ** The Fetcher *)

Section Fetcher.

(** [json.Unmarshal(body, &v)] at [v : IPifyResponse], from Go's standard
    library [encoding/json]: the value of [v] afterwards and the error
    returned.  The development is parametric in the decoder. *)
Variable json_Unmarshal : string -> IPifyResponse -> IPifyResponse * option error.

(** The script of the network: [server url n] is what the [n]-th GET
    request of the process returns when it is sent to [url]. *)
Variable server : string -> nat -> GetResult.

(** [client.Get(endpoint)], issued when [net] requests were made before. *)
Definition client_Get (endpoint : string) (net : nat) : GetResult * nat :=
  (server endpoint net, S net).

(** [io.ReadAll(resp.Body)]. *)
Definition io_ReadAll (body : string * option error) : string * option error :=
  body.

(** Lines 170-177 of [fetchExternalIP]: JSON first, plain text otherwise. *)
Definition parseBody (body : string) : string :=
  let ipResponse := mkIPifyResponse "" in   (* var ipResponse IPifyResponse *)
  let '(ipResponse, err) := json_Unmarshal body ipResponse in
  match err with
  | None => if negb (IP ipResponse =? "")%string then IP ipResponse else body
  | Some _ => body
  end.

(** fetchExternalIP makes an HTTP request to the specified endpoint and
    extracts the IP.  It will retry up to maxAttempts times if the request
    fails. *)
Equations? fetchExternalIP (endpoint : string) (attempt maxAttempts : Z) (net : nat)
  : (string * option error) * nat
  by wf (Z.to_nat (maxAttempts - attempt)) lt :=
fetchExternalIP endpoint attempt maxAttempts net :=
  (* If we've already reached max attempts, fail immediately *)
  if attempt >? maxAttempts then
    (("", Some (Errorf "failed to make request after %d attempts" [Int maxAttempts])), net)
  else
    (* Make request *)
    match client_Get endpoint net with
    | (GetError err, net) =>
        (* If we haven't reached max attempts yet, try again *)
        match Z_lt_dec attempt maxAttempts with
        | left _ => fetchExternalIP endpoint (attempt + 1) maxAttempts net
        | right _ =>
            (("", Some (Errorf "failed to make request after %d attempts: %v"
                               [Int maxAttempts; Err err])), net)
        end
    | (GetResponse resp, net) =>
        (* Check status code - only proceed with 2xx responses *)
        if ((StatusCode resp <? 200) || (StatusCode resp >=? 300))%bool then
          (* If we haven't reached max attempts yet, try again *)
          match Z_lt_dec attempt maxAttempts with
          | left _ => fetchExternalIP endpoint (attempt + 1) maxAttempts net
          | right _ =>
              (("", Some (Errorf "failed after %d attempts: HTTP status %d"
                                 [Int maxAttempts; Int (StatusCode resp)])), net)
          end
        else
          (* Read response *)
          match io_ReadAll (Body resp) with
          | (_, Some err) =>
              (("", Some (Errorf "failed to read response: %v" [Err err])), net)
          | (body, None) => ((parseBody body, None), net)
          end
    end.
Proof. all: lia. Qed.

End Fetcher.

(** ** The Watcher *)

(** State of a [sync.Mutex]; the zero value is an unlocked mutex. *)
Inductive Mutex : Type := Unlocked | Locked.

(** [m.Lock()]: [None] when the caller blocks (nobody else runs in this
    single-goroutine program, so it would block for ever). *)
Definition Mutex_Lock (m : Mutex) : option Mutex :=
  match m with
  | Unlocked => Some Locked
  | Locked => None
  end.

(** [m.Unlock()]: [None] for the fatal error "unlock of unlocked mutex". *)
Definition Mutex_Unlock (m : Mutex) : option Mutex :=
  match m with
  | Locked => Some Unlocked
  | Unlocked => None
  end.

(** Config holds the application configuration *)
Record Config : Type := mkConfig {
  Interval : Z;               (* Check interval in seconds *)
  LogFile : string;           (* Path to log file *)
  IPEndpoint : string;        (* Endpoint to check IP from *)
  QuietMode : bool;           (* If true, only logs to file and not stdout *)
  MaxRetries : Z;             (* Maximum number of retry attempts for IP fetching *)
  LastKnownIP : string;       (* Cache the last known IP *)
  LastKnownIPLock : Mutex
}.

(** The assignment [config.LastKnownIP = ip] through the pointer. *)
Definition set_LastKnownIP (ip : string) (config : Config) : Config :=
  mkConfig (Interval config) (LogFile config) (IPEndpoint config)
           (QuietMode config) (MaxRetries config) ip (LastKnownIPLock config).

Definition set_LastKnownIPLock (m : Mutex) (config : Config) : Config :=
  mkConfig (Interval config) (LogFile config) (IPEndpoint config)
           (QuietMode config) (MaxRetries config) (LastKnownIP config) m.

(** What the process has done to the outside world: the number of GET
    requests issued, and the messages written to the logging sink. *)
Record Process : Type := mkProcess {
  requests : nat;
  logged : list string
}.

(** logMessage logs a message to the configured output *)
Definition logMessage (format : string) (args : list any) (p : Process) : Process :=
  mkProcess (requests p) (logged p ++ [Sprintf format args]).

Section Watcher.

Variable json_Unmarshal : string -> IPifyResponse -> IPifyResponse * option error.
Variable server : string -> nat -> GetResult.

(** checkIP performs a single IP check.  [None]: the call does not return
    (the mutex was held on entry). *)
Definition checkIP (config : Config) (p : Process) : option (Config * Process) :=
  (* Make HTTP request to get IP *)
  let '((ip, err), net) :=
    fetchExternalIP json_Unmarshal server
                    (IPEndpoint config) 1 (MaxRetries config) (requests p) in
  let p := mkProcess net (logged p) in
  match err with
  | Some err => Some (config, logMessage "Error checking IP: %v" [Err err] p)
  | None =>
      (* Compare with last known IP *)
      match Mutex_Lock (LastKnownIPLock config) with
      | None => None
      | Some m =>
          let config := set_LastKnownIPLock m config in
          let '(config, p) :=
            if negb (ip =? LastKnownIP config)%string then
              let p :=
                if (LastKnownIP config =? "")%string then
                  logMessage "Current external IP: %s" [Str ip] p
                else
                  logMessage "IP changed: %s -> %s" [Str (LastKnownIP config); Str ip] p in
              (set_LastKnownIP ip config, p)
            else (config, p) in
          (* defer config.LastKnownIPLock.Unlock() *)
          match Mutex_Unlock (LastKnownIPLock config) with
          | None => None
          | Some m => Some (set_LastKnownIPLock m config, p)
          end
      end
  end.

(** [n] checks in a row. *)
Fixpoint checks (n : nat) (config : Config) (p : Process) : option (Config * Process) :=
  match n with
  | O => Some (config, p)
  | S n' =>
      match checkIP config p with
      | Some (config, p) => checks n' config p
      | None => None
      end
  end.

(** startIPChecker starts the main loop checking for IP changes.  The loop
    never ends; this is the process when the check of the [ticks]-th tick has
    returned: the initial check, then one check per tick.  [None]:
    [time.NewTicker] panics on a duration that is not positive, or a check
    does not return. *)
Definition startIPChecker (ticks : nat) (config : Config) (p : Process)
  : option (Config * Process) :=
  if wrapInt (Interval config * Second) <=? 0 then None
  else checks (S ticks) config p.

End Watcher.

(** ** Vocabulary of the statements *)

(** The request of an attempt failed: [client.Get] returned an error
    (line 146) or the status code is outside 2xx (line 156). *)
Definition attemptFails (r : GetResult) : bool :=
  match r with
  | GetError _ => true
  | GetResponse resp => (StatusCode resp <? 200) || (StatusCode resp >=? 300)
  end.

(** The error built after the last attempt failed with [r] (lines 151, 161). *)
Definition exhaustedRetries (maxAttempts : Z) (r : GetResult) : error :=
  match r with
  | GetError err =>
      Errorf "failed to make request after %d attempts: %v" [Int maxAttempts; Err err]
  | GetResponse resp =>
      Errorf "failed after %d attempts: HTTP status %d" [Int maxAttempts; Int (StatusCode resp)]
  end.

(** The error of the guard at the top of [fetchExternalIP] (line 141). *)
Definition guardError (maxAttempts : Z) : error :=
  Errorf "failed to make request after %d attempts" [Int maxAttempts].

(** The error for a body that could not be read (line 167). *)
Definition readError (err : error) : error :=
  Errorf "failed to read response: %v" [Err err].

(** What [fetchExternalIP] returns once a request got a 2xx response
    (lines 164-177): the read error, or the parsed body. *)
Definition readResponse (json_Unmarshal : string -> IPifyResponse -> IPifyResponse * option error)
    (resp : Response) : string * option error :=
  match io_ReadAll (Body resp) with
  | (_, Some err) => ("", Some (readError err))
  | (body, None) => (parseBody json_Unmarshal body, None)
  end.

(** The two recursive calls of [fetchExternalIP] (lines 149 and 159): the
    invocation with [attempt] that starts when [net] requests were issued
    passes the guard, sees its request fail, and calls itself. *)
Inductive recurses (server : string -> nat -> GetResult) (endpoint : string) (maxAttempts : Z)
  : Z * nat -> Z * nat -> Prop :=
| recurses_transport attempt net err :
    (attempt >? maxAttempts) = false ->
    server endpoint net = GetError err ->
    attempt < maxAttempts ->
    recurses server endpoint maxAttempts (attempt, net) (attempt + 1, S net)
| recurses_status attempt net resp :
    (attempt >? maxAttempts) = false ->
    server endpoint net = GetResponse resp ->
    ((StatusCode resp <? 200) || (StatusCode resp >=? 300))%bool = true ->
    attempt < maxAttempts ->
    recurses server endpoint maxAttempts (attempt, net) (attempt + 1, S net).

(** The invocations of [fetchExternalIP] in one run: the first one, made by
    the caller, and those made by invocations of the run. *)
Inductive invoked (server : string -> nat -> GetResult) (endpoint : string) (maxAttempts : Z)
    (first : Z * nat) : Z * nat -> Prop :=
| invoked_first : invoked server endpoint maxAttempts first first
| invoked_rec call call' :
    invoked server endpoint maxAttempts first call ->
    recurses server endpoint maxAttempts call call' ->
    invoked server endpoint maxAttempts first call'.

(** The body [{"ip":"<ip>"}] that the test servers of the repository send,
    for an address without characters that JSON escapes.  The double quote is
    written by its code, 34. *)
Definition ipifyJSON (ip : string) : string :=
  let q := String "034" EmptyString in
  "{" ++ q ++ "ip" ++ q ++ ":" ++ q ++ ip ++ q ++ "}".

(** The zero value of [IPifyResponse], as declared by [var ipResponse]. *)
Definition zeroIPifyResponse : IPifyResponse := mkIPifyResponse "".

(** ** Worked runs

    The servers of the repository's tests, run through the model with the
    reference decoder. *)

(** [TestFetchExternalIPWithStatusCodeRetry]: two 500s, then the JSON body. *)
Definition failTwiceServer (url : string) (n : nat) : GetResult :=
  match n with
  | 0%nat | 1%nat => GetResponse (mkResponse 500 ("", None))
  | _ => GetResponse (mkResponse 200 (ipifyJSON "192.168.1.100", None))
  end.

(** [TestFetchExternalIPWithConfigurableRetries]: always status 500. *)
Definition alwaysFailServer (url : string) (n : nat) : GetResult :=
  GetResponse (mkResponse 500 ("", None)).

(** [TestIPLoggerIntegration]: the address changes after two requests. *)
Definition changingServer (url : string) (n : nat) : GetResult :=
  match n with
  | 0%nat | 1%nat => GetResponse (mkResponse 200 (ipifyJSON "192.168.0.1", None))
  | _ => GetResponse (mkResponse 200 (ipifyJSON "192.168.0.2", None))
  end.

(** A host that cannot be reached. *)
Definition unreachableServer (url : string) (n : nat) : GetResult :=
  GetError (errorString "dial tcp: lookup non.existent.server.local: no such host").


(** A server that answers 200 with an empty body. *)
Definition emptyBodyServer (url : string) (n : nat) : GetResult :=
  GetResponse (mkResponse 200 ("", None)).

(** The configuration [parseFlags] builds when no flag is given. *)
Definition defaultConfig : Config :=
  mkConfig 60 "" "https://api64.ipify.org?format=json" false 5 "" Unlocked.

(** ** Start-up: flags, logging set-up and [main] *)

(** The values [flag.Parse] leaves in the five variables that [parseFlags]
    registers.  Reading the command line is the work of Go's [flag] package. *)
Record Flags : Type := mkFlags {
  flag_interval : Z;
  flag_log : string;
  flag_endpoint : string;
  flag_quiet : bool;
  flag_max_retries : Z
}.

(** The defaults given to [flag.IntVar], [flag.StringVar] and [flag.BoolVar]. *)
Definition defaultFlags : Flags :=
  mkFlags 60 "" "https://api64.ipify.org?format=json" false 5.

(** parseFlags parses command-line flags and returns the configuration:
    [config := &Config{}] leaves [LastKnownIP] and the mutex at their zero
    values, the flags fill the other fields. *)
Definition parseFlags (parsed : Flags) : Config :=
  mkConfig (flag_interval parsed) (flag_log parsed) (flag_endpoint parsed)
           (flag_quiet parsed) (flag_max_retries parsed) "" Unlocked.

(** The streams the process writes log lines to: [os.Stderr], [os.Stdout],
    and the file opened at [name] for appending. *)
Inductive Stream : Type :=
| Stderr
| Stdout
| File (name : string).

(** An [io.Writer]: a stream, or an [io.MultiWriter] over writers. *)
Inductive Writer : Type :=
| StreamWriter (f : Stream)
| MultiWriter (writers : list Writer).

(** [w.Write(line)]: the streams that receive the line, in order.  Streams
    are taken to accept every write. *)
Fixpoint Write (w : Writer) (line : string) : list (Stream * string) :=
  match w with
  | StreamWriter f => [(f, line)]
  | MultiWriter writers => flat_map (fun w' => Write w' line) writers
  end.

(** The standard logger of package [log]: its output, and what it has
    written so far, oldest first. *)
Record Logger : Type := mkLogger {
  out : Writer;
  written : list (Stream * string)
}.

(** The standard logger when the program starts: it writes to [os.Stderr]. *)
Definition log_std : Logger := mkLogger (StreamWriter Stderr) [].

(** [log.Printf(format, args...)]. *)
Definition log_Printf (format : string) (args : list any) (lg : Logger) : Logger :=
  mkLogger (out lg) (written lg ++ Write (out lg) (Sprintf format args)).

(** [log.SetOutput(w)]. *)
Definition log_SetOutput (w : Writer) (lg : Logger) : Logger :=
  mkLogger w (written lg).

(** The messages of a process, handed to the logger one by one. *)
Definition log_all (messages : list string) (lg : Logger) : Logger :=
  mkLogger (out lg) (written lg ++ flat_map (Write (out lg)) messages).

(** How [main] stands when it is looked at. *)
Inductive Run : Type :=
| Exited (code : Z) (lg : Logger)
    (* [os.Exit(code)] was called *)
| Halted (lg : Logger)
    (* [startIPChecker] stopped the goroutine before its first check *)
| Running (config : Config) (requests : nat) (lg : Logger).
    (* the check of the tick looked at has returned *)

(** The standard logger of a run. *)
Definition run_logger (r : Run) : Logger :=
  match r with
  | Exited _ lg => lg
  | Halted lg => lg
  | Running _ _ lg => lg
  end.

(** The line [main] logs before it starts the loop. *)
Definition startLine (config : Config) : string :=
  Sprintf "IP Watcher starting. Will check IP every %d seconds" [Int (Interval config)].

Section Startup.

Variable json_Unmarshal : string -> IPifyResponse -> IPifyResponse * option error.
Variable server : string -> nat -> GetResult.

(** [filepath.Dir(path)], from Go's standard library. *)
Variable filepath_Dir : string -> string.

(** [os.MkdirAll(dir, 0755)] and [os.OpenFile(name, O_APPEND|O_CREATE|O_WRONLY,
    0644)] on the file system the process runs on: the error returned, if any. *)
Variable os_MkdirAll : string -> option error.
Variable os_OpenFile : string -> option error.

(** setupLogging configures logging to file if a log file is specified.
    [inr]: the process has exited with that status. *)
Definition setupLogging (config : Config) (lg : Logger) : Logger + Z * Logger :=
  if negb (LogFile config =? "")%string then
    (* Create directory for log file if it doesn't exist *)
    let logDir := filepath_Dir (LogFile config) in
    match os_MkdirAll logDir with
    | Some err => inr (1, log_Printf "Failed to create log directory: %v" [Err err] lg)
    | None =>
        (* Open log file *)
        match os_OpenFile (LogFile config) with
        | Some err => inr (1, log_Printf "Failed to open log file: %v" [Err err] lg)
        | None =>
            let logFile := StreamWriter (File (LogFile config)) in
            (* Set log output to the file *)
            if QuietMode config then inl (log_SetOutput logFile lg)
            else inl (log_SetOutput (MultiWriter [StreamWriter Stdout; logFile]) lg)
        end
    end
  else inl lg.

(** [main], looked at when the check of the [ticks]-th tick has returned.
    The messages the process hands to [logMessage] go through the standard
    logger as [setupLogging] left it. *)
Definition main (parsed : Flags) (ticks : nat) : Run :=
  (* Set up logging: [log.SetFlags] only chooses the prefix of the lines *)
  let lg := log_std in
  (* Parse command-line flags *)
  let config := parseFlags parsed in
  (* Create log file if specified *)
  match setupLogging config lg with
  | inr (code, lg) => Exited code lg
  | inl lg =>
      (* Start the IP checking loop *)
      let p := logMessage "IP Watcher starting. Will check IP every %d seconds"
                          [Int (Interval config)] (mkProcess 0 []) in
      match startIPChecker json_Unmarshal server ticks config p with
      | Some (config, p) => Running config (requests p) (log_all (logged p) lg)
      | None => Halted (log_all (logged p) lg)
      end
  end.

End Startup.

(** Two results of [client.Get] that [fetchExternalIP] cannot tell apart:
    the same error; or the same status code and, when it is a 2xx, the same
    outcome of reading the body (the same read error, or the same bytes). *)
Definition sameForFetcher (r r' : GetResult) : Prop :=
  match r, r' with
  | GetError err, GetError err' => err = err'
  | GetResponse resp, GetResponse resp' =>
      StatusCode resp = StatusCode resp' /\
      (200 <= StatusCode resp < 300 ->
       snd (Body resp) = snd (Body resp') /\
       (snd (Body resp) = None -> fst (Body resp) = fst (Body resp')))
  | _, _ => False
  end.

(** ** Servers, disks and flags for the runs of the start-up *)

(** The part of a path before its last slash, when it has a slash. *)
Fixpoint beforeLastSlash (path : string) : option string :=
  match path with
  | EmptyString => None
  | String c rest =>
      match beforeLastSlash rest with
      | Some dir => Some (String c dir)
      | None => if Ascii.eqb c "/" then Some EmptyString else None
      end
  end.

(** [filepath.Dir] on a clean Unix path (no doubled or trailing slash, no
    dot elements). *)
Definition cleanDir (path : string) : string :=
  match beforeLastSlash path with
  | None => "."
  | Some EmptyString => "/"
  | Some dir => dir
  end.

(** A disk on which directories and files can be created. *)
Definition writableDisk (name : string) : option error := None.

(** A disk on which no directory can be created. *)
Definition readOnlyDisk (dir : string) : option error :=
  Some (errorString ("mkdir " ++ dir ++ ": read-only file system")).

(** The server of [failTwiceServer] as seen by another observer: error
    pages in the bodies of its 500s, a broken connection after its third
    answer, and nothing behind any other URL. *)
Definition noisyFailTwiceServer (url : string) (n : nat) : GetResult :=
  if (url =? "http://127.0.0.1:8080")%string then
    match n with
    | 0%nat | 1%nat => GetResponse (mkResponse 500 ("Internal Server Error", None))
    | 2%nat => GetResponse (mkResponse 200 (ipifyJSON "192.168.1.100", None))
    | _ => GetError (errorString "connection reset by peer")
    end
  else GetError (errorString "no such host").

(** A server whose second answer has an empty body. *)
Definition blinkingServer (url : string) (n : nat) : GetResult :=
  match n with
  | 1%nat => GetResponse (mkResponse 200 ("", None))
  | _ => GetResponse (mkResponse 200 (ipifyJSON "192.168.0.1", None))
  end.

(** Command lines: a log file; a log file and [-quiet]; an interval of zero. *)
Definition fileFlags : Flags :=
  mkFlags 60 "/var/log/ip-watcher/ip.log" "https://api64.ipify.org?format=json" false 5.

Definition quietFlags : Flags :=
  mkFlags 60 "/var/log/ip-watcher/ip.log" "https://api64.ipify.org?format=json" true 5.

Definition zeroIntervalFlags : Flags :=
  mkFlags 0 "" "https://api64.ipify.org?format=json" false 5.

(** ** Machine integers *)

(** [attempt+1] is only computed under [attempt < maxAttempts], where Go's
    wrap-around addition is the addition of [Z]. *)
Lemma attempt_succ_in_range attempt maxAttempts :
  MinInt <= attempt -> maxAttempts <= MaxInt -> attempt < maxAttempts ->
  wrapInt (attempt + 1) = attempt + 1.
Proof.
  unfold wrapInt, MinInt, MaxInt. intros Hmin Hmax Hlt.
  rewrite Z.mod_small; lia.
Qed.

(** ** Texts of the errors *)

Lemma Some_inj {A : Type} (x y : A) : Some x = Some y -> x = y.
Proof. congruence. Qed.

Lemma append_empty_r (s : string) : s ++ "" = s.
Proof. induction s as [| c s IH]; simpl; [reflexivity | now rewrite IH]. Qed.

Lemma guardError_text maxAttempts :
  Error (guardError maxAttempts) =
  "failed to make request after " ++ itoa maxAttempts ++ " attempts".
Proof. reflexivity. Qed.

Lemma exhaustedRetries_transport_text maxAttempts err :
  Error (exhaustedRetries maxAttempts (GetError err)) =
  "failed to make request after " ++ itoa maxAttempts ++ " attempts: " ++ Error err.
Proof. cbn -[itoa]. now rewrite append_empty_r. Qed.

Lemma exhaustedRetries_status_text maxAttempts resp :
  Error (exhaustedRetries maxAttempts (GetResponse resp)) =
  "failed after " ++ itoa maxAttempts ++ " attempts: HTTP status " ++ itoa (StatusCode resp).
Proof. cbn -[itoa]. now rewrite append_empty_r. Qed.

Lemma readError_text err :
  Error (readError err) = "failed to read response: " ++ Error err.
Proof. cbn. now rewrite append_empty_r. Qed.

Lemma append_assoc (a b c : string) : a ++ b ++ c = (a ++ b) ++ c.
Proof. induction a as [| x a IH]; simpl; [reflexivity | now rewrite IH]. Qed.

Lemma prefix_append (x post : string) : String.prefix x (x ++ post) = true.
Proof.
  induction x as [| c x IH]; simpl; [now destruct post |].
  destruct (ascii_dec c c); [assumption | congruence].
Qed.

Lemma Contains_append (pre x post : string) : Contains (pre ++ x ++ post) x = true.
Proof.
  induction pre as [| c pre IH].
  - simpl append at 1. destruct x as [| a x]; simpl.
    + now destruct post.
    + destruct (ascii_dec a a); [| congruence]. now rewrite prefix_append.
  - change (Contains (String c (pre ++ x ++ post)) x = true).
    unfold Contains; fold Contains. rewrite IH.
    now destruct (String.prefix x (String c (pre ++ x ++ post))).
Qed.

(** The error of exhausted retries mentions the number of attempts. *)
Lemma exhaustedRetries_mentions maxAttempts r :
  Contains (Error (exhaustedRetries maxAttempts r)) (itoa maxAttempts ++ " attempts") = true.
Proof.
  destruct r as [err | resp].
  - rewrite exhaustedRetries_transport_text.
    change (" attempts: " ++ Error err) with (" attempts" ++ ": " ++ Error err).
    rewrite (append_assoc (itoa maxAttempts)). apply Contains_append.
  - rewrite exhaustedRetries_status_text.
    change (" attempts: HTTP status " ++ itoa (StatusCode resp))
      with (" attempts" ++ ": HTTP status " ++ itoa (StatusCode resp)).
    rewrite (append_assoc (itoa maxAttempts)). apply Contains_append.
Qed.


Lemma readError_not_guard err maxAttempts : readError err <> guardError maxAttempts.
Proof. intros H; apply (f_equal Error) in H; cbn -[itoa] in H; discriminate. Qed.

Lemma append_cancel_l (p a b : string) : p ++ a = p ++ b -> a = b.
Proof. induction p as [| c p IH]; simpl; intros H; [assumption | injection H; auto]. Qed.

Lemma exhaustedRetries_not_guard maxAttempts r :
  exhaustedRetries maxAttempts r <> guardError maxAttempts.
Proof.
  intros H. apply (f_equal Error) in H. rewrite guardError_text in H.
  destruct r as [err | resp].
  - rewrite exhaustedRetries_transport_text in H.
    apply append_cancel_l, append_cancel_l in H. discriminate.
  - rewrite exhaustedRetries_status_text in H. discriminate.
Qed.

Section FetcherFacts.

Variable json_Unmarshal : string -> IPifyResponse -> IPifyResponse * option error.
Variable server : string -> nat -> GetResult.

Lemma fetch_guard endpoint attempt maxAttempts net :
  attempt > maxAttempts ->
  fetchExternalIP json_Unmarshal server endpoint attempt maxAttempts net
  = (("", Some (guardError maxAttempts)), net).
Proof.
  intros H. rewrite fetchExternalIP_equation_1.
  destruct (Z.gtb_spec attempt maxAttempts); [reflexivity | lia].
Qed.

Lemma fetch_retry endpoint attempt maxAttempts net :
  attempt < maxAttempts ->
  attemptFails (server endpoint net) = true ->
  fetchExternalIP json_Unmarshal server endpoint attempt maxAttempts net
  = fetchExternalIP json_Unmarshal server endpoint (attempt + 1) maxAttempts (S net).
Proof.
  intros Hlt Hf. rewrite fetchExternalIP_equation_1 at 1.
  destruct (Z.gtb_spec attempt maxAttempts); [lia |].
  unfold client_Get. destruct (server endpoint net) as [err | resp]; simpl in Hf.
  - destruct (Z_lt_dec attempt maxAttempts); [reflexivity | lia].
  - rewrite Hf. destruct (Z_lt_dec attempt maxAttempts); [reflexivity | lia].
Qed.

Lemma fetch_last endpoint maxAttempts net :
  attemptFails (server endpoint net) = true ->
  fetchExternalIP json_Unmarshal server endpoint maxAttempts maxAttempts net =
  (("", Some (exhaustedRetries maxAttempts (server endpoint net))), S net).
Proof.
  intros Hf. rewrite fetchExternalIP_equation_1.
  destruct (Z.gtb_spec maxAttempts maxAttempts); [lia |].
  unfold client_Get. destruct (server endpoint net) as [err | resp]; simpl in Hf.
  - destruct (Z_lt_dec maxAttempts maxAttempts); [lia | reflexivity].
  - rewrite Hf. destruct (Z_lt_dec maxAttempts maxAttempts); [lia | reflexivity].
Qed.

Lemma fetch_2xx endpoint attempt maxAttempts net resp :
  attempt <= maxAttempts ->
  server endpoint net = GetResponse resp ->
  attemptFails (GetResponse resp) = false ->
  fetchExternalIP json_Unmarshal server endpoint attempt maxAttempts net
  = (readResponse json_Unmarshal resp, S net).
Proof.
  intros Hle Hs Hf. rewrite fetchExternalIP_equation_1.
  destruct (Z.gtb_spec attempt maxAttempts); [lia |].
  unfold client_Get. rewrite Hs. simpl in Hf. rewrite Hf.
  unfold readResponse. destruct (io_ReadAll (Body resp)) as [body [err |]]; reflexivity.
Qed.

(** [k] failed attempts in a row are [k] recursive calls. *)
Lemma fetch_skip endpoint maxAttempts (k : nat) : forall attempt net,
  attempt + Z.of_nat k <= maxAttempts ->
  (forall i, (i < k)%nat -> attemptFails (server endpoint (net + i)) = true) ->
  fetchExternalIP json_Unmarshal server endpoint attempt maxAttempts net =
  fetchExternalIP json_Unmarshal server endpoint (attempt + Z.of_nat k) maxAttempts (net + k).
Proof.
  induction k as [| k IH]; intros attempt net Hle Hfail.
  - rewrite Z.add_0_r, Nat.add_0_r. reflexivity.
  - rewrite fetch_retry.
    + rewrite IH.
      * f_equal; lia.
      * lia.
      * intros i Hi. replace (S net + i)%nat with (net + S i)%nat by lia.
        apply Hfail. lia.
    + lia.
    + rewrite <- (Nat.add_0_r net). apply Hfail. lia.
Qed.

(** Every run that passes the guard: some failed attempts, then either the
    budget is used up by one more failure, or a 2xx response ends the run. *)
Lemma fetch_run endpoint maxAttempts : forall (fuel : nat) attempt net,
  attempt <= maxAttempts ->
  Z.to_nat (maxAttempts - attempt) = fuel ->
  exists k : nat,
    attempt + Z.of_nat k <= maxAttempts /\
    (forall i, (i < k)%nat -> attemptFails (server endpoint (net + i)) = true) /\
    ((attemptFails (server endpoint (net + k)) = true /\
      attempt + Z.of_nat k = maxAttempts /\
      fetchExternalIP json_Unmarshal server endpoint attempt maxAttempts net =
      (("", Some (exhaustedRetries maxAttempts (server endpoint (net + k)))), S (net + k)))
     \/
     (exists resp,
        server endpoint (net + k) = GetResponse resp /\
        attemptFails (GetResponse resp) = false /\
        fetchExternalIP json_Unmarshal server endpoint attempt maxAttempts net
        = (readResponse json_Unmarshal resp, S (net + k)))).
Proof.
  induction fuel as [| fuel IH]; intros attempt net Hle Hfuel.
  - assert (attempt = maxAttempts) by lia. subst attempt.
    exists 0%nat. rewrite Nat.add_0_r, Z.add_0_r.
    split; [lia |]. split; [intros i Hi; lia |].
    destruct (attemptFails (server endpoint net)) eqn:Hf.
    + left. auto using fetch_last.
    + right. destruct (server endpoint net) as [err | resp] eqn:Hs; [discriminate |].
      exists resp. auto using fetch_2xx.
  - destruct (attemptFails (server endpoint net)) eqn:Hf.
    + destruct (IH (attempt + 1) (S net)) as (k & Hk & Hfails & Hend); [lia | lia |].
      exists (S k).
      replace (net + S k)%nat with (S net + k)%nat by lia.
      split; [lia |]. split.
      * intros [| i] Hi; [now rewrite Nat.add_0_r |].
        replace (net + S i)%nat with (S net + i)%nat by lia. apply Hfails. lia.
      * rewrite fetch_retry by (assumption || lia).
        destruct Hend as [(Hlast & Hk' & Hres) | (resp & Hs & Hok & Hres)].
        -- left. split; [assumption |]. split; [lia | assumption].
        -- right. exists resp. auto.
    + exists 0%nat. rewrite Nat.add_0_r, Z.add_0_r.
      split; [lia |]. split; [intros i Hi; lia |].
      right. destruct (server endpoint net) as [err | resp] eqn:Hs; [discriminate |].
      exists resp. auto using fetch_2xx.
Qed.

(** A call that passes the guard issues at least one request and at most
    as many as the attempts it has left. *)
Lemma fetch_request_bound endpoint attempt maxAttempts net :
  attempt <= maxAttempts ->
  (net < snd (fetchExternalIP json_Unmarshal server endpoint attempt maxAttempts net)
   <= net + Z.to_nat (maxAttempts - attempt + 1))%nat.
Proof.
  intros Hle.
  destruct (fetch_run endpoint maxAttempts _ attempt net Hle eq_refl)
    as (k & Hk & _ & [(_ & _ & Hfetch) | (resp & _ & _ & Hfetch)]);
    rewrite Hfetch; cbn [snd]; lia.
Qed.

(** The recursive call returns the result of the calling invocation. *)
Lemma recurses_result endpoint maxAttempts attempt net attempt' net' :
  recurses server endpoint maxAttempts (attempt, net) (attempt', net') ->
  fetchExternalIP json_Unmarshal server endpoint attempt maxAttempts net
  = fetchExternalIP json_Unmarshal server endpoint attempt' maxAttempts net'.
Proof.
  intros H.
  inversion H as [a n err Hguard Hs Hlt | a n resp Hguard Hs Hstatus Hlt]; subst;
    apply fetch_retry; trivial; rewrite Hs; simpl; trivial.
Qed.

Lemma attemptFails_2xx resp :
  attemptFails (GetResponse resp) = false <-> 200 <= StatusCode resp < 300.
Proof. simpl. rewrite orb_false_iff. lia. Qed.

Lemma attemptFails_true r :
  attemptFails r = true <->
  (forall resp, r = GetResponse resp -> StatusCode resp < 200 \/ 300 <= StatusCode resp).
Proof.
  destruct r as [err | resp]; simpl.
  - split; [discriminate | reflexivity].
  - rewrite orb_true_iff. split.
    + intros H resp' [= <-]. lia.
    + intros H. specialize (H resp eq_refl). lia.
Qed.

(** C3 — Attempt bounding.  When the first [maxAttempts] requests of a
    call with [attempt = 1] all fail (transport error or status outside
    2xx), the call issues exactly [maxAttempts] requests and returns the
    error of exhausted retries built from the last failure, whose text
    mentions "[maxAttempts] attempts". *)
Theorem fetch_always_failing endpoint maxAttempts net :
  1 <= maxAttempts ->
  (forall i, (i < Z.to_nat maxAttempts)%nat ->
             attemptFails (server endpoint (net + i)) = true) ->
  exists e,
    fetchExternalIP json_Unmarshal server endpoint 1 maxAttempts net
    = (("", Some e), (net + Z.to_nat maxAttempts)%nat) /\
    e = exhaustedRetries maxAttempts (server endpoint (net + Z.to_nat maxAttempts - 1)) /\
    Contains (Error e) (itoa maxAttempts ++ " attempts") = true.
Proof.
  intros Hn Hfail.
  remember (Z.to_nat maxAttempts - 1)%nat as k eqn:Hk.
  exists (exhaustedRetries maxAttempts (server endpoint (net + Z.to_nat maxAttempts - 1))).
  split; [| split; [reflexivity | apply exhaustedRetries_mentions]].
  replace (net + Z.to_nat maxAttempts - 1)%nat with (net + k)%nat by lia.
  replace (net + Z.to_nat maxAttempts)%nat with (S (net + k)) by lia.
  rewrite (fetch_skip endpoint maxAttempts k).
  - replace (1 + Z.of_nat k) with maxAttempts by lia.
    apply fetch_last, Hfail. lia.
  - lia.
  - intros i Hi. apply Hfail. lia.
Qed.

(** C4 — Retry recovery.  When the first [k < maxAttempts] requests fail
    and the next one gets a 2xx response with a readable body, the call
    with [attempt = 1] returns, without error and after exactly [k + 1]
    requests, the address fetched by that request: the field [IP] that the
    JSON decoder filled from the body when it reports no error and the
    field is not empty, and the body itself otherwise. *)
Theorem fetch_recovers endpoint maxAttempts (k : nat) net resp body v err :
  1 <= maxAttempts ->
  Z.of_nat k < maxAttempts ->
  (forall i, (i < k)%nat -> attemptFails (server endpoint (net + i)) = true) ->
  server endpoint (net + k) = GetResponse resp ->
  200 <= StatusCode resp < 300 ->
  Body resp = (body, None) ->
  json_Unmarshal body zeroIPifyResponse = (v, err) ->
  fetchExternalIP json_Unmarshal server endpoint 1 maxAttempts net =
  ((match err with
    | None => if (IP v =? "")%string then body else IP v
    | Some _ => body
    end, None), (net + k + 1)%nat).
Proof.
  intros Hn Hk Hfail Hs Hok Hbody Hjson.
  rewrite (fetch_skip endpoint maxAttempts k) by (assumption || lia).
  rewrite (fetch_2xx _ _ _ _ resp) by (try apply attemptFails_2xx; assumption || lia).
  unfold readResponse, io_ReadAll. rewrite Hbody.
  unfold parseBody. fold zeroIPifyResponse. rewrite Hjson.
  replace (S (net + k)) with (net + k + 1)%nat by lia.
  destruct err as [e |]; [reflexivity |].
  now destruct (IP v =? "")%string.
Qed.


(** C7 — What makes an attempt succeed.  For an invocation that passes
    the guard: a response with a status in [200, 300) ends the run with no
    further request, and the body decides the result; a transport error
    and a response with any other status are handled alike: retried with
    [attempt + 1] while [attempt < maxAttempts], and on the last attempt
    answered by an error that names [maxAttempts] and the cause (the status
    code received, or the transport error). *)
Theorem attempt_succeeds_iff_2xx endpoint attempt maxAttempts net :
  attempt <= maxAttempts ->
  (forall resp,
      server endpoint net = GetResponse resp ->
      200 <= StatusCode resp < 300 ->
      fetchExternalIP json_Unmarshal server endpoint attempt maxAttempts net
      = (readResponse json_Unmarshal resp, S net))
  /\
  ((forall resp,
      server endpoint net = GetResponse resp ->
      StatusCode resp < 200 \/ 300 <= StatusCode resp) ->
   (attempt < maxAttempts ->
    fetchExternalIP json_Unmarshal server endpoint attempt maxAttempts net =
    fetchExternalIP json_Unmarshal server endpoint (attempt + 1) maxAttempts (S net))
   /\
   (attempt = maxAttempts ->
    exists e,
      fetchExternalIP json_Unmarshal server endpoint attempt maxAttempts net
      = (("", Some e), S net) /\
      match server endpoint net with
      | GetResponse resp =>
          Error e = "failed after " ++ itoa maxAttempts
                    ++ " attempts: HTTP status " ++ itoa (StatusCode resp)
      | GetError err =>
          Error e = "failed to make request after " ++ itoa maxAttempts
                    ++ " attempts: " ++ Error err
      end)).
Proof.
  intros Hle. split.
  - intros resp Hs Hok. apply fetch_2xx; trivial. now apply attemptFails_2xx.
  - intros Hbad. apply attemptFails_true in Hbad. split.
    + intros Hlt. now apply fetch_retry.
    + intros ->. exists (exhaustedRetries maxAttempts (server endpoint net)).
      split; [now apply fetch_last |].
      destruct (server endpoint net) as [err | resp].
      * apply exhaustedRetries_transport_text.
      * apply exhaustedRetries_status_text.
Qed.

(** C9 — The guard is dead code for the Watcher's calls.  In a run
    started with [attempt = 1] and [maxAttempts >= 1], every invocation,
    the first one and each recursive one, has [1 <= attempt <= maxAttempts]
    and so fails the test [attempt > maxAttempts]; each returns the result
    of the run, which is never the error of the guard. *)
Theorem guard_unreachable endpoint maxAttempts net0 attempt net :
  1 <= maxAttempts ->
  invoked server endpoint maxAttempts (1, net0) (attempt, net) ->
  1 <= attempt <= maxAttempts /\
  (attempt >? maxAttempts) = false /\
  fetchExternalIP json_Unmarshal server endpoint attempt maxAttempts net
  = fetchExternalIP json_Unmarshal server endpoint 1 maxAttempts net0 /\
  snd (fst (fetchExternalIP json_Unmarshal server endpoint 1 maxAttempts net0))
  <> Some (guardError maxAttempts).
Proof.
  intros Hn Hinv.
  assert (Hrange : 1 <= attempt <= maxAttempts /\
                   fetchExternalIP json_Unmarshal server endpoint attempt maxAttempts net
                   = fetchExternalIP json_Unmarshal server endpoint 1 maxAttempts net0).
  { remember (1, net0) as first eqn:Hfirst. remember (attempt, net) as call eqn:Hcall.
    revert attempt net Hcall.
    induction Hinv as [| [a n] call' Hinv IH Hrec]; intros attempt net Hcall.
    - rewrite Hfirst in Hcall. injection Hcall as <- <-. split; [lia | reflexivity].
    - subst call'. destruct (IH a n eq_refl) as [Ha Hres].
      rewrite <- Hres. split.
      + inversion Hrec; subst; lia.
      + symmetry. now apply recurses_result. }
  destruct Hrange as [Hrange Hres].
  split; [exact Hrange |]. split; [| split; [exact Hres |]].
  - destruct (Z.gtb_spec attempt maxAttempts); [lia | reflexivity].
  - destruct (fetch_run endpoint maxAttempts _ 1 net0 ltac:(lia) eq_refl)
      as (k & _ & _ & [(_ & _ & Hfetch) | (resp & _ & _ & Hfetch)]);
      rewrite Hfetch; cbn [fst snd].
    + intros H. apply Some_inj in H. now apply exhaustedRetries_not_guard in H.
    + unfold readResponse.
      destruct (io_ReadAll (Body resp)) as [body [err |]]; cbn [fst snd].
      * intros H. apply Some_inj in H. now apply readError_not_guard in H.
      * discriminate.
Qed.

(** C10 — No validation of the result.  For a 2xx response: with the
    empty body, which the JSON step rejects, the call succeeds with the empty
    string; a readable body that the JSON step rejects is returned as it is,
    whatever it contains; and no readable body makes the call fail. *)
Theorem empty_body_is_success endpoint attempt maxAttempts net resp :
  attempt <= maxAttempts ->
  server endpoint net = GetResponse resp ->
  200 <= StatusCode resp < 300 ->
  (Body resp = ("", None) ->
   snd (json_Unmarshal "" zeroIPifyResponse) <> None ->
   fetchExternalIP json_Unmarshal server endpoint attempt maxAttempts net = (("", None), S net))
  /\
  (forall body,
      Body resp = (body, None) ->
      snd (json_Unmarshal body zeroIPifyResponse) <> None ->
      fetchExternalIP json_Unmarshal server endpoint attempt maxAttempts net
      = ((body, None), S net))
  /\
  (forall body,
      Body resp = (body, None) ->
      snd (fst (fetchExternalIP json_Unmarshal server endpoint attempt maxAttempts net))
      = None).
Proof.
  intros Hle Hs Hok.
  assert (H : forall body,
             Body resp = (body, None) ->
             snd (json_Unmarshal body zeroIPifyResponse) <> None ->
             fetchExternalIP json_Unmarshal server endpoint attempt maxAttempts net
             = ((body, None), S net)).
  { intros body Hbody Hjson.
    rewrite (fetch_2xx _ _ _ _ resp) by (try apply attemptFails_2xx; assumption).
    unfold readResponse, io_ReadAll. rewrite Hbody.
    unfold parseBody. fold zeroIPifyResponse.
    destruct (json_Unmarshal body zeroIPifyResponse) as [v [err |]]; simpl in *;
      [reflexivity | congruence]. }
  split; [apply H |]. split; [exact H |].
  intros body Hbody.
  rewrite (fetch_2xx _ _ _ _ resp) by (try apply attemptFails_2xx; assumption).
  unfold readResponse, io_ReadAll. now rewrite Hbody.
Qed.

(** C5 — The parse step.  A 2xx response with a readable body always
    yields an address and no error.  The address is the field [IP] filled
    by the JSON decoder when the decoder reports no error and the field is
    not empty, and the whole body, byte for byte, in every other case.
    With the reference decoder, the body [{"ip":"203.0.113.5"}] gives
    [203.0.113.5] and the body [203.0.113.9] gives [203.0.113.9]. *)
Theorem parse_json_then_text endpoint attempt maxAttempts net resp body :
  attempt <= maxAttempts ->
  server endpoint net = GetResponse resp ->
  200 <= StatusCode resp < 300 ->
  Body resp = (body, None) ->
  (exists ip,
      fetchExternalIP json_Unmarshal server endpoint attempt maxAttempts net
      = ((ip, None), S net) /\
      ip = parseBody json_Unmarshal body /\
      (forall v, json_Unmarshal body zeroIPifyResponse = (v, None) ->
                 IP v <> "" -> ip = IP v) /\
      (forall v err, json_Unmarshal body zeroIPifyResponse = (v, err) ->
                     err <> None \/ IP v = "" -> ip = body))
  /\ parseBody encoding_json.Unmarshal (ipifyJSON "203.0.113.5") = "203.0.113.5"
  /\ parseBody encoding_json.Unmarshal "203.0.113.9" = "203.0.113.9".
Proof.
  intros Hle Hs Hok Hbody. split; [| split; reflexivity].
  exists (parseBody json_Unmarshal body). split; [| split; [reflexivity | split]].
  - rewrite (fetch_2xx _ _ _ _ resp) by (try apply attemptFails_2xx; assumption).
    unfold readResponse, io_ReadAll. now rewrite Hbody.
  - intros v Hjson Hip. unfold parseBody. fold zeroIPifyResponse. rewrite Hjson.
    apply String.eqb_neq in Hip. now rewrite Hip.
  - intros v err Hjson Hcase. unfold parseBody. fold zeroIPifyResponse. rewrite Hjson.
    destruct err as [err |]; [reflexivity |].
    destruct Hcase as [Herr | Hip]; [congruence |].
    apply String.eqb_eq in Hip. now rewrite Hip.
Qed.

End FetcherFacts.

(** ** The Watcher *)

Section WatcherFacts.

Variable json_Unmarshal : string -> IPifyResponse -> IPifyResponse * option error.
Variable server : string -> nat -> GetResult.

Lemma set_LastKnownIP_same config : set_LastKnownIP (LastKnownIP config) config = config.
Proof. now destruct config. Qed.

(** A failed fetch: one log line, the configuration is left alone, the
    mutex is not touched. *)
Lemma checkIP_fetch_failed config p ip e net :
  fetchExternalIP json_Unmarshal server (IPEndpoint config) 1 (MaxRetries config) (requests p)
  = ((ip, Some e), net) ->
  checkIP json_Unmarshal server config p =
  Some (config, mkProcess net (logged p ++ ["Error checking IP: " ++ Error e])).
Proof.
  intros Hfetch. unfold checkIP. rewrite Hfetch. unfold logMessage. cbn.
  now rewrite append_empty_r.
Qed.

(** A successful fetch, by the three cases of the comparison. *)
Lemma checkIP_fetch_ok config p ip net :
  LastKnownIPLock config = Unlocked ->
  fetchExternalIP json_Unmarshal server (IPEndpoint config) 1 (MaxRetries config) (requests p)
  = ((ip, None), net) ->
  checkIP json_Unmarshal server config p =
  Some (set_LastKnownIP ip config,
        mkProcess net
          (if (ip =? LastKnownIP config)%string then logged p
           else if (LastKnownIP config =? "")%string
                then logged p ++ ["Current external IP: " ++ ip]
                else logged p ++ ["IP changed: " ++ LastKnownIP config ++ " -> " ++ ip])).
Proof.
  intros Hlock Hfetch. unfold checkIP. rewrite Hfetch, Hlock.
  destruct config as [interval logfile endpoint quiet retries last lock].
  cbn [Mutex_Lock set_LastKnownIPLock set_LastKnownIP LastKnownIP LastKnownIPLock
       Interval LogFile IPEndpoint QuietMode MaxRetries] in *.
  subst lock.
  destruct (ip =? last)%string eqn:Hsame; cbn [negb].
  - apply String.eqb_eq in Hsame. subst ip. reflexivity.
  - destruct (last =? "")%string; unfold logMessage; cbn; now rewrite ?append_empty_r.
Qed.

(** From an unlocked mutex the call returns, with the mutex unlocked. *)
Lemma checkIP_returns config p :
  LastKnownIPLock config = Unlocked ->
  exists config' p', checkIP json_Unmarshal server config p = Some (config', p') /\
                     LastKnownIPLock config' = Unlocked.
Proof.
  intros Hlock.
  destruct (fetchExternalIP json_Unmarshal server
              (IPEndpoint config) 1 (MaxRetries config) (requests p))
    as [[ip [e |]] net] eqn:Hfetch.
  - rewrite (checkIP_fetch_failed _ _ _ _ _ Hfetch). eauto.
  - rewrite (checkIP_fetch_ok _ _ _ _ Hlock Hfetch). eauto.
Qed.

(** Any number of checks in a row return, each finding the mutex free. *)
Lemma checks_return (n : nat) : forall config p,
  LastKnownIPLock config = Unlocked ->
  exists config' p',
    checks json_Unmarshal server n config p = Some (config', p') /\
    LastKnownIPLock config' = Unlocked.
Proof.
  induction n as [| n IH]; intros config p Hlock; cbn [checks].
  - eauto.
  - destruct (checkIP_returns config p Hlock) as (config1 & p1 & -> & Hlock1).
    now apply IH.
Qed.

(** With a positive interval and a free mutex, [startIPChecker] gets through
    every tick. *)
Lemma startIPChecker_returns (ticks : nat) config p :
  0 < wrapInt (Interval config * Second) ->
  LastKnownIPLock config = Unlocked ->
  exists config' p',
    startIPChecker json_Unmarshal server ticks config p = Some (config', p') /\
    LastKnownIPLock config' = Unlocked.
Proof.
  intros Hinterval Hlock. unfold startIPChecker.
  destruct (Z.leb_spec (wrapInt (Interval config * Second)) 0); [lia |].
  now apply checks_return.
Qed.

(** C2, amended — The cached address.  When the fetch fails, [checkIP]
    returns with the configuration as it was, so [LastKnownIP] is
    unchanged.  When the mutex is free, [checkIP] returns, and
    [LastKnownIP] has a new value if and only if the fetch succeeded with a
    string different from the cached one, empty or not; after a successful
    fetch [LastKnownIP] is the fetched string. *)
Theorem cache_update config p :
  (forall ip e net,
      fetchExternalIP json_Unmarshal server (IPEndpoint config) 1 (MaxRetries config) (requests p)
      = ((ip, Some e), net) ->
      exists p', checkIP json_Unmarshal server config p = Some (config, p'))
  /\
  (LastKnownIPLock config = Unlocked ->
   exists config' p',
     checkIP json_Unmarshal server config p = Some (config', p') /\
     (forall ip net,
         fetchExternalIP json_Unmarshal server
           (IPEndpoint config) 1 (MaxRetries config) (requests p)
         = ((ip, None), net) ->
         LastKnownIP config' = ip) /\
     (LastKnownIP config' <> LastKnownIP config <->
      exists ip net,
        fetchExternalIP json_Unmarshal server (IPEndpoint config) 1 (MaxRetries config) (requests p)
        = ((ip, None), net) /\
        ip <> LastKnownIP config)).
Proof.
  split.
  - intros ip e net Hfetch. rewrite (checkIP_fetch_failed _ _ _ _ _ Hfetch). eauto.
  - intros Hlock.
    destruct (fetchExternalIP json_Unmarshal server
              (IPEndpoint config) 1 (MaxRetries config) (requests p))
      as [[ip [e |]] net] eqn:Hfetch.
    + rewrite (checkIP_fetch_failed _ _ _ _ _ Hfetch).
      do 2 eexists. split; [reflexivity |]. split; [discriminate |].
      split; [congruence |]. intros (ip' & net' & Hok & _). discriminate.
    + rewrite (checkIP_fetch_ok _ _ _ _ Hlock Hfetch).
      do 2 eexists. split; [reflexivity |]. cbn [set_LastKnownIP LastKnownIP].
      split; [congruence |]. split.
      * intros Hne. exists ip, net. auto.
      * intros (ip' & net' & Hok & Hne). congruence.
Qed.

(** C8 — The frame of [checkIP].  When the mutex is free, [checkIP]
    returns; and whenever it returns, on success or failure of the fetch,
    [Interval], [LogFile], [IPEndpoint], [QuietMode] and [MaxRetries] are
    what they were: the configuration differs from the one on entry in
    the field [LastKnownIP] at most (the mutex is released again). *)
Theorem checkIP_frame config p :
  (LastKnownIPLock config = Unlocked ->
   exists config' p', checkIP json_Unmarshal server config p = Some (config', p'))
  /\
  (forall config' p',
      checkIP json_Unmarshal server config p = Some (config', p') ->
      Interval config' = Interval config /\
      LogFile config' = LogFile config /\
      IPEndpoint config' = IPEndpoint config /\
      QuietMode config' = QuietMode config /\
      MaxRetries config' = MaxRetries config /\
      config' = set_LastKnownIP (LastKnownIP config') config).
Proof.
  split.
  - intros Hlock. destruct (checkIP_returns config p Hlock) as (config' & p' & H & _). eauto.
  - intros config' p' Hcheck.
    destruct (fetchExternalIP json_Unmarshal server
              (IPEndpoint config) 1 (MaxRetries config) (requests p))
      as [[ip [e |]] net] eqn:Hfetch.
    + rewrite (checkIP_fetch_failed _ _ _ _ _ Hfetch) in Hcheck.
      injection Hcheck as <- _. rewrite set_LastKnownIP_same. tauto.
    + destruct (LastKnownIPLock config) eqn:Hlock.
      * rewrite (checkIP_fetch_ok _ _ _ _ Hlock Hfetch) in Hcheck.
        injection Hcheck as <- _. cbn. tauto.
      * unfold checkIP in Hcheck. rewrite Hfetch, Hlock in Hcheck. discriminate.
Qed.

(** C6 — Change detection.  From an empty cache and a free mutex, three
    checks whose fetches return [a], [a] and [b], with [a] not empty and
    [b] different from [a], log "Current external IP: a", then nothing,
    then "IP changed: a -> b": after the second check one line has been
    added to the log in all, and after the third check the log holds those
    two lines and the cache holds [b].  [checks 3] is these three checks in
    a row. *)
Theorem change_detection config p a b n1 n2 n3 :
  LastKnownIP config = "" ->
  LastKnownIPLock config = Unlocked ->
  a <> "" ->
  a <> b ->
  fetchExternalIP json_Unmarshal server (IPEndpoint config) 1 (MaxRetries config) (requests p)
  = ((a, None), n1) ->
  fetchExternalIP json_Unmarshal server (IPEndpoint config) 1 (MaxRetries config) n1
  = ((a, None), n2) ->
  fetchExternalIP json_Unmarshal server (IPEndpoint config) 1 (MaxRetries config) n2
  = ((b, None), n3) ->
  let c1 := set_LastKnownIP a config in
  let c3 := set_LastKnownIP b config in
  let p1 := mkProcess n1 (logged p ++ ["Current external IP: " ++ a]) in
  let p2 := mkProcess n2 (logged p ++ ["Current external IP: " ++ a]) in
  let p3 := mkProcess n3 (logged p ++ ["Current external IP: " ++ a;
                                       "IP changed: " ++ a ++ " -> " ++ b]) in
  checkIP json_Unmarshal server config p = Some (c1, p1) /\
  checkIP json_Unmarshal server c1 p1 = Some (c1, p2) /\
  checkIP json_Unmarshal server c1 p2 = Some (c3, p3) /\
  checks json_Unmarshal server 3 config p = Some (c3, p3).
Proof.
  intros Hempty Hlock Ha Hab H1 H2 H3 c1 c3 p1 p2 p3.
  assert (E1 : checkIP json_Unmarshal server config p = Some (c1, p1)).
  { rewrite (checkIP_fetch_ok _ _ _ _ Hlock H1). rewrite Hempty.
    apply String.eqb_neq in Ha. rewrite Ha. reflexivity. }
  assert (E2 : checkIP json_Unmarshal server c1 p1 = Some (c1, p2)).
  { rewrite (checkIP_fetch_ok c1 p1 a n2) by (subst c1; cbn; assumption).
    subst c1 p1 p2. cbn. now rewrite String.eqb_refl. }
  assert (E3 : checkIP json_Unmarshal server c1 p2 = Some (c3, p3)).
  { rewrite (checkIP_fetch_ok c1 p2 b n3) by (subst c1; cbn; assumption).
    subst c1 c3 p2 p3. cbn.
    assert (Hba : (b =? a)%string = false) by (apply String.eqb_neq; congruence).
    apply String.eqb_neq in Ha. rewrite Hba, Ha.
    rewrite <- app_assoc. reflexivity. }
  repeat split; trivial.
  cbn [checks]. now rewrite E1, E2, E3.
Qed.

End WatcherFacts.

(** ** Concrete runs *)

(** The reference decoder on the bodies the statements speak of. *)
Example ipifyJSON_bytes :
  list_ascii_of_string (ipifyJSON "::1")
  = ["{"; "034"; "i"; "p"; "034"; ":"; "034"; ":"; ":"; "1"; "034"; "}"]%char.
Proof. reflexivity. Qed.

Example Unmarshal_ipify :
  encoding_json.Unmarshal (ipifyJSON "203.0.113.5") zeroIPifyResponse
  = (mkIPifyResponse "203.0.113.5", None).
Proof. reflexivity. Qed.

Example Unmarshal_plain_text :
  encoding_json.Unmarshal "203.0.113.9" zeroIPifyResponse
  = (zeroIPifyResponse, Some (errorString "json: syntax error")).
Proof. reflexivity. Qed.

Example Unmarshal_empty :
  encoding_json.Unmarshal "" zeroIPifyResponse
  = (zeroIPifyResponse, Some (errorString "json: syntax error")).
Proof. reflexivity. Qed.

Example Unmarshal_null :
  encoding_json.Unmarshal "null" zeroIPifyResponse = (zeroIPifyResponse, None).
Proof. reflexivity. Qed.

Example Unmarshal_other_fields :
  encoding_json.Unmarshal "{ } " zeroIPifyResponse = (zeroIPifyResponse, None) /\
  encoding_json.Unmarshal "[1, 2.5e-3, true]" zeroIPifyResponse
  = (zeroIPifyResponse,
     Some (errorString "json: cannot unmarshal array into Go value of type main.IPifyResponse")).
Proof. split; reflexivity. Qed.

(** [TestFetchExternalIP], cases 1 and 2, with the reference decoder. *)
Example test_fetch_json :
  fetchExternalIP encoding_json.Unmarshal
    (fun _ _ => GetResponse (mkResponse 200 (ipifyJSON "192.168.1.1", None)))
    "http://127.0.0.1:8080" 1 5 0
  = (("192.168.1.1", None), 1%nat).
Proof. reflexivity. Qed.

Example test_fetch_plain_text :
  fetchExternalIP encoding_json.Unmarshal
    (fun _ _ => GetResponse (mkResponse 200 ("10.0.0.1", None)))
    "http://127.0.0.1:8080" 1 5 0
  = (("10.0.0.1", None), 1%nat).
Proof. reflexivity. Qed.

(** [TestFetchExternalIPWithStatusCodeRetry]. *)
Example test_status_code_retry :
  fetchExternalIP encoding_json.Unmarshal failTwiceServer "http://127.0.0.1:8080" 1 5 0
  = (("192.168.1.100", None), 3%nat).
Proof. reflexivity. Qed.

(** [TestFetchExternalIPWithConfigurableRetries]. *)
Example test_configurable_retries :
  fetchExternalIP encoding_json.Unmarshal alwaysFailServer "http://127.0.0.1:8080" 1 3 0
  = (("", Some (errorString "failed after 3 attempts: HTTP status 500")), 3%nat)
  /\
  fetchExternalIP encoding_json.Unmarshal alwaysFailServer "http://127.0.0.1:8080" 1 2 3
  = (("", Some (errorString "failed after 2 attempts: HTTP status 500")), 5%nat).
Proof. split; reflexivity. Qed.

(** [TestFetchExternalIPWithNetworkErrorRetry]. *)
Example test_network_error_retry :
  exists e,
    fetchExternalIP encoding_json.Unmarshal unreachableServer
      "http://non.existent.server.local" 1 5 0 = (("", Some e), 5%nat) /\
    Contains (Error e) "attempts" = true.
Proof.
  exists (exhaustedRetries 5 (unreachableServer "http://non.existent.server.local" 4)).
  split; reflexivity.
Qed.

(** [TestCheckIP] and [TestIPLoggerIntegration]: three checks. *)
Example test_checkIP :
  startIPChecker encoding_json.Unmarshal changingServer 2
    (mkConfig 1 "" "http://127.0.0.1:8080" false 5 "" Unlocked) (mkProcess 0 [])
  = Some (mkConfig 1 "" "http://127.0.0.1:8080" false 5 "192.168.0.2" Unlocked,
          mkProcess 3 ["Current external IP: 192.168.0.1";
                       "IP changed: 192.168.0.1 -> 192.168.0.2"]).
Proof. reflexivity. Qed.

(** With a budget of zero attempts the guard answers, and no request is made. *)
Example guard_with_empty_budget :
  fetchExternalIP encoding_json.Unmarshal alwaysFailServer "http://127.0.0.1:8080" 1 0 0
  = (("", Some (errorString "failed to make request after 0 attempts")), 0%nat).
Proof. reflexivity. Qed.


(** C2, as stated, fails: with a non-empty cached address, a 200 response
    with an empty body makes [checkIP] overwrite the cache with the empty
    string, although no different non-empty string was fetched. *)
Lemma cache_overwritten_by_empty_string :
  let config := set_LastKnownIP "203.0.113.5" defaultConfig in
  let p := mkProcess 0 [] in
  let config' := set_LastKnownIP "" defaultConfig in
  let p' := mkProcess 1 ["IP changed: 203.0.113.5 -> "] in
  LastKnownIP config <> "" /\
  fetchExternalIP encoding_json.Unmarshal emptyBodyServer
    (IPEndpoint config) 1 (MaxRetries config) (requests p) = (("", None), 1%nat) /\
  checkIP encoding_json.Unmarshal emptyBodyServer config p = Some (config', p') /\
  ~ (LastKnownIP config' <> LastKnownIP config <->
     exists ip net,
       fetchExternalIP encoding_json.Unmarshal emptyBodyServer
         (IPEndpoint config) 1 (MaxRetries config) (requests p) = ((ip, None), net) /\
       ip <> LastKnownIP config /\ ip <> "").
Proof.
  intros config p config' p'.
  assert (Hfetch : fetchExternalIP encoding_json.Unmarshal emptyBodyServer
                     (IPEndpoint config) 1 (MaxRetries config) (requests p)
                   = (("", None), 1%nat)) by reflexivity.
  split; [discriminate |]. split; [exact Hfetch |]. split; [reflexivity |].
  intros [Honly_if _].
  destruct Honly_if as (ip & net & Hip & _ & Hne); [discriminate |].
  rewrite Hfetch in Hip. apply Hne. congruence.
Qed.

(** ** The theorems applied to the servers above *)

(** C3 on the server that always answers 500, with a budget of three. *)
Lemma fetch_always_failing_run :
  1 <= 3 /\
  (forall i, (i < Z.to_nat 3)%nat ->
             attemptFails (alwaysFailServer "http://127.0.0.1:8080" (0 + i)) = true) /\
  exists e,
    fetchExternalIP encoding_json.Unmarshal alwaysFailServer "http://127.0.0.1:8080" 1 3 0
    = (("", Some e), (0 + Z.to_nat 3)%nat) /\
    e = exhaustedRetries 3 (alwaysFailServer "http://127.0.0.1:8080" (0 + Z.to_nat 3 - 1)) /\
    Contains (Error e) (itoa 3 ++ " attempts") = true.
Proof.
  split; [lia |]. split; [intros i Hi; reflexivity |].
  apply (fetch_always_failing encoding_json.Unmarshal alwaysFailServer
           "http://127.0.0.1:8080" 3 0); [lia | intros i Hi; reflexivity].
Defined.

(** C4 on the server that fails twice, with a budget of five: the address
    returned is 192.168.1.100, the value of the field, not the JSON body. *)
Lemma fetch_recovers_run :
  1 <= 5 /\ Z.of_nat 2 < 5 /\
  (forall i, (i < 2)%nat ->
             attemptFails (failTwiceServer "http://127.0.0.1:8080" (0 + i)) = true) /\
  failTwiceServer "http://127.0.0.1:8080" (0 + 2)
  = GetResponse (mkResponse 200 (ipifyJSON "192.168.1.100", None)) /\
  encoding_json.Unmarshal (ipifyJSON "192.168.1.100") zeroIPifyResponse
  = (mkIPifyResponse "192.168.1.100", None) /\
  fetchExternalIP encoding_json.Unmarshal failTwiceServer "http://127.0.0.1:8080" 1 5 0
  = (("192.168.1.100", None), 3%nat) /\
  "192.168.1.100" <> ipifyJSON "192.168.1.100".
Proof.
  assert (Hfail : forall i, (i < 2)%nat ->
             attemptFails (failTwiceServer "http://127.0.0.1:8080" (0 + i)) = true).
  { intros [| [| i]] Hi; [reflexivity | reflexivity | lia]. }
  split; [lia |]. split; [lia |]. split; [exact Hfail |]. split; [reflexivity |].
  split; [reflexivity |]. split; [| discriminate].
  apply (fetch_recovers encoding_json.Unmarshal failTwiceServer "http://127.0.0.1:8080" 5 2 0
           (mkResponse 200 (ipifyJSON "192.168.1.100", None)) (ipifyJSON "192.168.1.100")
           (mkIPifyResponse "192.168.1.100") None);
    [lia | lia | exact Hfail | reflexivity | simpl; lia | reflexivity | reflexivity].
Defined.


(** C7 on the first, failing, request of the server that fails twice, and
    on its third, successful, one. *)
Lemma attempt_succeeds_iff_2xx_run :
  (1 <= 5 /\
   fetchExternalIP encoding_json.Unmarshal failTwiceServer "http://127.0.0.1:8080" 1 5 0
   = fetchExternalIP encoding_json.Unmarshal failTwiceServer "http://127.0.0.1:8080" (1 + 1) 5 1)
  /\
  (3 <= 5 /\
   fetchExternalIP encoding_json.Unmarshal failTwiceServer "http://127.0.0.1:8080" 3 5 2
   = (readResponse encoding_json.Unmarshal
        (mkResponse 200 (ipifyJSON "192.168.1.100", None)), 3%nat)).
Proof.
  split; (split; [lia |]).
  - destruct (attempt_succeeds_iff_2xx encoding_json.Unmarshal failTwiceServer
                "http://127.0.0.1:8080" 1 5 0 ltac:(lia)) as [_ Hfail].
    apply Hfail; [| lia].
    intros resp Hresp. injection Hresp as <-. simpl. lia.
  - destruct (attempt_succeeds_iff_2xx encoding_json.Unmarshal failTwiceServer
                "http://127.0.0.1:8080" 3 5 2 ltac:(lia)) as [Hok _].
    apply Hok; [reflexivity | simpl; lia].
Defined.

(** C9 on the server that fails twice: the third invocation. *)
Lemma guard_unreachable_run :
  1 <= 5 /\
  invoked failTwiceServer "http://127.0.0.1:8080" 5 (1, 0%nat) (3, 2%nat) /\
  1 <= 3 <= 5 /\
  (3 >? 5) = false /\
  fetchExternalIP encoding_json.Unmarshal failTwiceServer "http://127.0.0.1:8080" 3 5 2
  = fetchExternalIP encoding_json.Unmarshal failTwiceServer "http://127.0.0.1:8080" 1 5 0 /\
  snd (fst (fetchExternalIP encoding_json.Unmarshal failTwiceServer
              "http://127.0.0.1:8080" 1 5 0)) <> Some (guardError 5).
Proof.
  assert (Hinv : invoked failTwiceServer "http://127.0.0.1:8080" 5 (1, 0%nat) (3, 2%nat)).
  { apply (invoked_rec _ _ _ _ (2, 1%nat)).
    - apply (invoked_rec _ _ _ _ (1, 0%nat)); [apply invoked_first |].
      apply (recurses_status failTwiceServer "http://127.0.0.1:8080" 5 1 0
               (mkResponse 500 ("", None))); [reflexivity | reflexivity | reflexivity | lia].
    - apply (recurses_status failTwiceServer "http://127.0.0.1:8080" 5 2 1
               (mkResponse 500 ("", None))); [reflexivity | reflexivity | reflexivity | lia]. }
  split; [lia |]. split; [exact Hinv |].
  apply (guard_unreachable encoding_json.Unmarshal failTwiceServer
           "http://127.0.0.1:8080" 5 0 3 2 ltac:(lia) Hinv).
Defined.

(** C10 on the server that answers 200 with an empty body. *)
Lemma empty_body_is_success_run :
  1 <= 5 /\
  emptyBodyServer "https://api64.ipify.org?format=json" 0
  = GetResponse (mkResponse 200 ("", None)) /\
  snd (encoding_json.Unmarshal "" zeroIPifyResponse) <> None /\
  fetchExternalIP encoding_json.Unmarshal emptyBodyServer
    "https://api64.ipify.org?format=json" 1 5 0 = (("", None), 1%nat).
Proof.
  assert (Hjson : snd (encoding_json.Unmarshal "" zeroIPifyResponse) <> None)
    by (cbn; discriminate).
  split; [lia |]. split; [reflexivity |]. split; [exact Hjson |].
  destruct (empty_body_is_success encoding_json.Unmarshal emptyBodyServer
              "https://api64.ipify.org?format=json" 1 5 0 (mkResponse 200 ("", None))
              ltac:(lia) eq_refl ltac:(simpl; lia)) as [Hempty _].
  apply Hempty; [reflexivity | exact Hjson].
Defined.

(** C5 on the first answer of the server whose address changes. *)
Lemma parse_json_then_text_run :
  1 <= 5 /\
  changingServer "http://127.0.0.1:8080" 0
  = GetResponse (mkResponse 200 (ipifyJSON "192.168.0.1", None)) /\
  exists ip,
    fetchExternalIP encoding_json.Unmarshal changingServer "http://127.0.0.1:8080" 1 5 0
    = ((ip, None), 1%nat) /\
    ip = parseBody encoding_json.Unmarshal (ipifyJSON "192.168.0.1").
Proof.
  split; [lia |]. split; [reflexivity |].
  destruct (parse_json_then_text encoding_json.Unmarshal changingServer
              "http://127.0.0.1:8080" 1 5 0
              (mkResponse 200 (ipifyJSON "192.168.0.1", None)) (ipifyJSON "192.168.0.1")
              ltac:(lia) eq_refl ltac:(simpl; lia) eq_refl) as [(ip & Hfetch & Hip & _) _].
  exists ip. split; assumption.
Defined.

(** C2, amended, on a check that finds a new address. *)
Lemma cache_update_run :
  let config := set_LastKnownIP "192.168.0.1" defaultConfig in
  let p := mkProcess 2 ["Current external IP: 192.168.0.1"] in
  LastKnownIPLock config = Unlocked /\
  exists config' p',
    checkIP encoding_json.Unmarshal changingServer config p = Some (config', p') /\
    (forall ip net,
        fetchExternalIP encoding_json.Unmarshal changingServer
          (IPEndpoint config) 1 (MaxRetries config) (requests p) = ((ip, None), net) ->
        LastKnownIP config' = ip) /\
    (LastKnownIP config' <> LastKnownIP config <->
     exists ip net,
       fetchExternalIP encoding_json.Unmarshal changingServer
         (IPEndpoint config) 1 (MaxRetries config) (requests p) = ((ip, None), net) /\
       ip <> LastKnownIP config).
Proof.
  intros config p. split; [reflexivity |].
  destruct (cache_update encoding_json.Unmarshal changingServer config p) as [_ Hok].
  apply Hok. reflexivity.
Defined.

(** C8 on the same check. *)
Lemma checkIP_frame_run :
  let config := set_LastKnownIP "192.168.0.1" defaultConfig in
  let p := mkProcess 2 ["Current external IP: 192.168.0.1"] in
  let config' := set_LastKnownIP "192.168.0.2" defaultConfig in
  let p' := mkProcess 3 ["Current external IP: 192.168.0.1";
                         "IP changed: 192.168.0.1 -> 192.168.0.2"] in
  checkIP encoding_json.Unmarshal changingServer config p = Some (config', p') /\
  Interval config' = Interval config /\
  LogFile config' = LogFile config /\
  IPEndpoint config' = IPEndpoint config /\
  QuietMode config' = QuietMode config /\
  MaxRetries config' = MaxRetries config /\
  config' = set_LastKnownIP (LastKnownIP config') config.
Proof.
  intros config p config' p'.
  assert (Hrun : checkIP encoding_json.Unmarshal changingServer config p = Some (config', p'))
    by reflexivity.
  split; [exact Hrun |].
  destruct (checkIP_frame encoding_json.Unmarshal changingServer config p) as [_ Hframe].
  apply Hframe with (p' := p'). exact Hrun.
Defined.

(** C6 on the server whose address changes after two requests. *)
Lemma change_detection_run :
  let a := "192.168.0.1" in
  let b := "192.168.0.2" in
  let p := mkProcess 0 [] in
  (LastKnownIP defaultConfig = "" /\ LastKnownIPLock defaultConfig = Unlocked /\
   a <> "" /\ a <> b) /\
  checkIP encoding_json.Unmarshal changingServer defaultConfig p
  = Some (set_LastKnownIP a defaultConfig, mkProcess 1 ["Current external IP: 192.168.0.1"]) /\
  checkIP encoding_json.Unmarshal changingServer (set_LastKnownIP a defaultConfig)
    (mkProcess 1 ["Current external IP: 192.168.0.1"])
  = Some (set_LastKnownIP a defaultConfig, mkProcess 2 ["Current external IP: 192.168.0.1"]) /\
  checkIP encoding_json.Unmarshal changingServer (set_LastKnownIP a defaultConfig)
    (mkProcess 2 ["Current external IP: 192.168.0.1"])
  = Some (set_LastKnownIP b defaultConfig,
          mkProcess 3 ["Current external IP: 192.168.0.1";
                       "IP changed: 192.168.0.1 -> 192.168.0.2"]) /\
  checks encoding_json.Unmarshal changingServer 3 defaultConfig p
  = Some (set_LastKnownIP b defaultConfig,
          mkProcess 3 ["Current external IP: 192.168.0.1";
                       "IP changed: 192.168.0.1 -> 192.168.0.2"]).
Proof.
  intros a b p.
  assert (Ha : a <> "") by discriminate.
  assert (Hab : a <> b) by discriminate.
  split; [repeat split; trivial |].
  apply (change_detection encoding_json.Unmarshal changingServer defaultConfig p a b
           1%nat 2%nat 3%nat eq_refl eq_refl Ha Hab); reflexivity.
Defined.


(** ** Further properties of the Fetcher *)

Section FetcherMore.

Variable json_Unmarshal : string -> IPifyResponse -> IPifyResponse * option error.
Variable server : string -> nat -> GetResult.

Lemma fetch_requests_le endpoint attempt maxAttempts net :
  (net <= snd (fetchExternalIP json_Unmarshal server endpoint attempt maxAttempts net)
   <= net + Z.to_nat (maxAttempts - attempt + 1))%nat.
Proof.
  destruct (Z_le_gt_dec attempt maxAttempts) as [Hle | Hgt].
  - pose proof (fetch_request_bound json_Unmarshal server endpoint attempt maxAttempts net Hle).
    lia.
  - rewrite fetch_guard by assumption. cbn [snd]. lia.
Qed.

(** X1 — The request budget.  Whatever the endpoint answers, a call issues
    at most [maxAttempts - attempt + 1] requests, none at all when
    [attempt > maxAttempts], and at least one when [attempt <= maxAttempts]. *)
Theorem fetch_requests_bounded endpoint attempt maxAttempts net :
  (net <= snd (fetchExternalIP json_Unmarshal server endpoint attempt maxAttempts net)
   <= net + Z.to_nat (maxAttempts - attempt + 1))%nat /\
  (attempt <= maxAttempts ->
   (net < snd (fetchExternalIP json_Unmarshal server endpoint attempt maxAttempts net))%nat).
Proof.
  destruct (Z_le_gt_dec attempt maxAttempts) as [Hle | Hgt].
  - pose proof (fetch_request_bound json_Unmarshal server endpoint attempt maxAttempts net Hle).
    split; [lia | intros _; lia].
  - rewrite fetch_guard by assumption. cbn [snd]. split; lia.
Qed.

(** X2 — What a success means.  When a call returns no error, the last
    request it issued got a 2xx response with a readable body, every request
    it issued before failed, and the address returned is the parse of that
    body. *)
Theorem fetch_success_inv endpoint attempt maxAttempts net ip net' :
  fetchExternalIP json_Unmarshal server endpoint attempt maxAttempts net = ((ip, None), net') ->
  exists resp body,
    (net < net')%nat /\
    (forall i, (net <= i < net' - 1)%nat -> attemptFails (server endpoint i) = true) /\
    server endpoint (net' - 1) = GetResponse resp /\
    200 <= StatusCode resp < 300 /\
    Body resp = (body, None) /\
    ip = parseBody json_Unmarshal body.
Proof.
  intros Hres.
  destruct (Z_le_gt_dec attempt maxAttempts) as [Hle | Hgt].
  - destruct (fetch_run json_Unmarshal server endpoint maxAttempts _ attempt net Hle eq_refl)
      as (k & Hk & Hfails & [(_ & _ & Hfetch) | (resp & Hs & Hok & Hfetch)]);
      rewrite Hfetch in Hres; [discriminate |].
    unfold readResponse, io_ReadAll in Hres.
    destruct (Body resp) as [body [err |]] eqn:Hbody; [discriminate |].
    injection Hres as <- <-.
    replace (S (net + k) - 1)%nat with (net + k)%nat by lia.
    exists resp, body. split; [lia |]. split.
    + intros i Hi. replace i with (net + (i - net))%nat by lia. apply Hfails. lia.
    + repeat split; trivial; now apply attemptFails_2xx.
  - rewrite fetch_guard in Hres by assumption. discriminate.
Qed.

(** Every request of the call fails: the budget is used up. *)
Lemma fetch_exhausts endpoint attempt maxAttempts net :
  attempt <= maxAttempts ->
  (forall i, (i < Z.to_nat (maxAttempts - attempt + 1))%nat ->
             attemptFails (server endpoint (net + i)) = true) ->
  fetchExternalIP json_Unmarshal server endpoint attempt maxAttempts net
  = (("", Some (exhaustedRetries maxAttempts
                  (server endpoint (net + Z.to_nat (maxAttempts - attempt))))),
     (net + Z.to_nat (maxAttempts - attempt + 1))%nat).
Proof.
  intros Hle Hfail.
  remember (Z.to_nat (maxAttempts - attempt)) as k eqn:Hk.
  replace (net + Z.to_nat (maxAttempts - attempt + 1))%nat with (S (net + k)) by lia.
  rewrite (fetch_skip json_Unmarshal server endpoint maxAttempts k).
  - replace (attempt + Z.of_nat k) with maxAttempts by lia.
    apply fetch_last, Hfail. lia.
  - lia.
  - intros i Hi. apply Hfail. lia.
Qed.

(** X3 — The error names the budget, not the requests made.  A call entered
    with any [attempt <= maxAttempts] whose requests all fail issues exactly
    [maxAttempts - attempt + 1] requests, and its error still reads
    "[maxAttempts] attempts". *)
Theorem fetch_reports_budget endpoint attempt maxAttempts net :
  attempt <= maxAttempts ->
  (forall i, (i < Z.to_nat (maxAttempts - attempt + 1))%nat ->
             attemptFails (server endpoint (net + i)) = true) ->
  exists e,
    fetchExternalIP json_Unmarshal server endpoint attempt maxAttempts net
    = (("", Some e), (net + Z.to_nat (maxAttempts - attempt + 1))%nat) /\
    Contains (Error e) (itoa maxAttempts ++ " attempts") = true.
Proof.
  intros Hle Hfail. rewrite (fetch_exhausts _ _ _ _ Hle Hfail).
  eexists. split; [reflexivity | apply exhaustedRetries_mentions].
Qed.

Variable server' : string -> nat -> GetResult.

Lemma sameForFetcher_fails r r' :
  sameForFetcher r r' -> attemptFails r = attemptFails r'.
Proof.
  destruct r as [err | resp], r' as [err' | resp']; simpl; try tauto.
  now intros [-> _].
Qed.

Lemma sameForFetcher_exhausted maxAttempts r r' :
  sameForFetcher r r' -> exhaustedRetries maxAttempts r = exhaustedRetries maxAttempts r'.
Proof.
  destruct r as [err | resp], r' as [err' | resp']; cbn [sameForFetcher]; intros H.
  - subst err'. reflexivity.
  - contradiction.
  - contradiction.
  - destruct H as [H _]. unfold exhaustedRetries. rewrite H. reflexivity.
Qed.

Lemma sameForFetcher_read resp resp' :
  sameForFetcher (GetResponse resp) (GetResponse resp') ->
  200 <= StatusCode resp < 300 ->
  readResponse json_Unmarshal resp = readResponse json_Unmarshal resp'.
Proof.
  simpl. intros [_ Hbody] Hok. destruct (Hbody Hok) as [Herr Hbytes].
  unfold readResponse, io_ReadAll.
  destruct (Body resp) as [body [err |]], (Body resp') as [body' [err' |]];
    simpl in *; try discriminate.
  - now injection Herr as ->.
  - now rewrite (Hbytes eq_refl).
Qed.

Lemma fetch_local_fuel endpoint maxAttempts : forall (fuel : nat) attempt net,
  Z.to_nat (maxAttempts - attempt + 1) = fuel ->
  (forall i,
      (net <= i < snd (fetchExternalIP json_Unmarshal server endpoint attempt maxAttempts net))%nat ->
      sameForFetcher (server endpoint i) (server' endpoint i)) ->
  fetchExternalIP json_Unmarshal server endpoint attempt maxAttempts net
  = fetchExternalIP json_Unmarshal server' endpoint attempt maxAttempts net.
Proof.
  induction fuel as [| fuel IH]; intros attempt net Hfuel Hsame.
  - rewrite (fetch_guard json_Unmarshal server), (fetch_guard json_Unmarshal server') by lia.
    reflexivity.
  - assert (Hle : attempt <= maxAttempts) by lia.
    pose proof (fetch_request_bound json_Unmarshal server endpoint attempt maxAttempts net Hle)
      as [Hfirst _].
    pose proof (Hsame net ltac:(lia)) as H0.
    pose proof (sameForFetcher_fails _ _ H0) as Hfails.
    destruct (attemptFails (server endpoint net)) eqn:Hf.
    + destruct (Z_lt_le_dec attempt maxAttempts) as [Hlt | Hge].
      * rewrite (fetch_retry json_Unmarshal server endpoint attempt) in Hsame |- * by assumption.
        rewrite (fetch_retry json_Unmarshal server' endpoint attempt)
          by (assumption || congruence).
        apply IH; [lia |].
        intros i Hi. apply Hsame. lia.
      * assert (attempt = maxAttempts) by lia. subst attempt.
        rewrite (fetch_last json_Unmarshal server) by assumption.
        rewrite (fetch_last json_Unmarshal server') by congruence.
        now rewrite (sameForFetcher_exhausted maxAttempts _ _ H0).
    + destruct (server endpoint net) as [err | resp] eqn:Hs; [discriminate |].
      destruct (server' endpoint net) as [err' | resp'] eqn:Hs'; [discriminate |].
      rewrite (fetch_2xx json_Unmarshal server _ _ _ _ resp) by assumption.
      rewrite (fetch_2xx json_Unmarshal server' _ _ _ _ resp') by (trivial; congruence).
      f_equal. apply sameForFetcher_read; [assumption |]. now apply attemptFails_2xx.
Qed.

(** X4 — What the Fetcher looks at.  The result depends on the answers of
    the given endpoint to the requests the call issues only, and of those on
    the transport error or the status code and, for a 2xx, on the outcome of
    reading the body: answers of other URLs, answers to later requests, the
    bodies of responses outside 2xx and the bytes read before a read error
    play no part. *)
Theorem fetch_local endpoint attempt maxAttempts net :
  (forall i,
      (net <= i < snd (fetchExternalIP json_Unmarshal server endpoint attempt maxAttempts net))%nat ->
      sameForFetcher (server endpoint i) (server' endpoint i)) ->
  fetchExternalIP json_Unmarshal server endpoint attempt maxAttempts net
  = fetchExternalIP json_Unmarshal server' endpoint attempt maxAttempts net.
Proof. intros Hsame. now apply (fetch_local_fuel endpoint maxAttempts _ attempt net eq_refl). Qed.

End FetcherMore.

(** ** Further properties of the Watcher *)

Lemma Contains_prepend (pre s x : string) :
  Contains s x = true -> Contains (pre ++ s) x = true.
Proof.
  intros H. induction pre as [| c pre IH]; [exact H |].
  change (Contains (String c (pre ++ s)) x = true).
  unfold Contains; fold Contains. rewrite IH.
  now destruct (String.prefix x (String c (pre ++ s))).
Qed.

Lemma wrapInt_in_range z : MinInt <= z <= MaxInt -> wrapInt z = z.
Proof.
  unfold wrapInt, MinInt, MaxInt. intros H. rewrite Z.mod_small; lia.
Qed.

Lemma wrapInt_above z : MaxInt < z <= MaxInt + 2 ^ 63 -> wrapInt z = z - 2 ^ 64.
Proof.
  unfold wrapInt, MinInt, MaxInt. intros H.
  replace (z - - 2 ^ 63) with ((z - 2 ^ 63) + 1 * 2 ^ 64) by lia.
  rewrite Z.mod_add by lia. rewrite Z.mod_small; lia.
Qed.

Section WatcherMore.

Variable json_Unmarshal : string -> IPifyResponse -> IPifyResponse * option error.
Variable server : string -> nat -> GetResult.

(** One check from a free mutex: what it keeps and how much it adds. *)
Lemma checkIP_step config p :
  LastKnownIPLock config = Unlocked ->
  exists config' p' lines,
    checkIP json_Unmarshal server config p = Some (config', p') /\
    config' = set_LastKnownIP (LastKnownIP config') config /\
    logged p' = (logged p ++ lines)%list /\
    (List.length lines <= 1)%nat /\
    (requests p <= requests p' <= requests p + Z.to_nat (MaxRetries config))%nat.
Proof.
  intros Hlock.
  pose proof (fetch_requests_le json_Unmarshal server
                (IPEndpoint config) 1 (MaxRetries config) (requests p)) as Hbound.
  replace (MaxRetries config - 1 + 1) with (MaxRetries config) in Hbound by lia.
  destruct (fetchExternalIP json_Unmarshal server
              (IPEndpoint config) 1 (MaxRetries config) (requests p))
    as [[ip [e |]] net] eqn:Hfetch; cbn [snd] in Hbound.
  - rewrite (checkIP_fetch_failed _ _ _ _ _ _ _ Hfetch).
    do 3 eexists. split; [reflexivity |].
    rewrite set_LastKnownIP_same. cbn [logged requests].
    split; [reflexivity |]. split; [reflexivity |]. split; [cbn; lia | lia].
  - rewrite (checkIP_fetch_ok _ _ _ _ _ _ Hlock Hfetch).
    exists (set_LastKnownIP ip config), (mkProcess net
      (if (ip =? LastKnownIP config)%string then logged p
       else if (LastKnownIP config =? "")%string
            then logged p ++ ["Current external IP: " ++ ip]
            else logged p ++ ["IP changed: " ++ LastKnownIP config ++ " -> " ++ ip])).
    destruct (ip =? LastKnownIP config)%string.
    + exists []. cbn [logged requests]. rewrite app_nil_r.
      repeat split; trivial; cbn; lia.
    + destruct (LastKnownIP config =? "")%string; eexists; cbn [logged requests];
        (split; [reflexivity |]); (split; [reflexivity |]);
        (split; [reflexivity |]); (split; [cbn; lia | lia]).
Qed.

(** X5 — A budget below one.  With [MaxRetries < 1] a check issues no
    request: the guard of [fetchExternalIP] answers, the check logs its error
    and leaves the configuration as it was. *)
Theorem checkIP_without_budget config p :
  MaxRetries config < 1 ->
  checkIP json_Unmarshal server config p
  = Some (config,
          mkProcess (requests p)
            (logged p ++ ["Error checking IP: failed to make request after "
                          ++ itoa (MaxRetries config) ++ " attempts"])).
Proof.
  intros Hbudget.
  rewrite (checkIP_fetch_failed json_Unmarshal server config p ""
             (guardError (MaxRetries config)) (requests p)).
  - reflexivity.
  - apply fetch_guard. lia.
Qed.

(** X6 — The log only grows, by one line a check at most.  A check that
    returns keeps every line logged before, adds at most one, and issues at
    most [MaxRetries] requests. *)
Theorem checkIP_appends config p config' p' :
  checkIP json_Unmarshal server config p = Some (config', p') ->
  exists lines,
    logged p' = (logged p ++ lines)%list /\
    (List.length lines <= 1)%nat /\
    (requests p <= requests p' <= requests p + Z.to_nat (MaxRetries config))%nat.
Proof.
  intros Hcheck.
  pose proof (fetch_requests_le json_Unmarshal server
                (IPEndpoint config) 1 (MaxRetries config) (requests p)) as Hbound.
  replace (MaxRetries config - 1 + 1) with (MaxRetries config) in Hbound by lia.
  destruct (fetchExternalIP json_Unmarshal server
              (IPEndpoint config) 1 (MaxRetries config) (requests p))
    as [[ip [e |]] net] eqn:Hfetch; cbn [snd] in Hbound.
  - rewrite (checkIP_fetch_failed _ _ _ _ _ _ _ Hfetch) in Hcheck.
    injection Hcheck as _ <-. eexists. cbn [logged requests].
    split; [reflexivity |]. split; [cbn; lia | lia].
  - destruct (LastKnownIPLock config) eqn:Hlock.
    + rewrite (checkIP_fetch_ok _ _ _ _ _ _ Hlock Hfetch) in Hcheck.
      injection Hcheck as _ <-. cbn [logged requests].
      destruct (ip =? LastKnownIP config)%string.
      * exists []. rewrite app_nil_r. split; [reflexivity |]. split; [cbn; lia | lia].
      * destruct (LastKnownIP config =? "")%string; eexists;
          (split; [reflexivity |]); (split; [cbn; lia | lia]).
    + unfold checkIP in Hcheck. rewrite Hfetch, Hlock in Hcheck. discriminate.
Qed.

(** X7 — No silent update.  Whenever a check changes [LastKnownIP], it
    adds exactly one line, which shows the new value: "Current external IP"
    when the cache was empty, "IP changed" with the old value otherwise. *)
Theorem checkIP_change_is_logged config p config' p' :
  checkIP json_Unmarshal server config p = Some (config', p') ->
  LastKnownIP config' <> LastKnownIP config ->
  logged p' =
  (logged p ++
   [if (LastKnownIP config =? "")%string
    then ("Current external IP: " ++ LastKnownIP config')%string
    else ("IP changed: " ++ LastKnownIP config ++ " -> " ++ LastKnownIP config')%string])%list.
Proof.
  intros Hcheck Hchanged.
  destruct (fetchExternalIP json_Unmarshal server
              (IPEndpoint config) 1 (MaxRetries config) (requests p))
    as [[ip [e |]] net] eqn:Hfetch.
  - rewrite (checkIP_fetch_failed _ _ _ _ _ _ _ Hfetch) in Hcheck.
    injection Hcheck as <- _. congruence.
  - destruct (LastKnownIPLock config) eqn:Hlock.
    + rewrite (checkIP_fetch_ok _ _ _ _ _ _ Hlock Hfetch) in Hcheck.
      injection Hcheck as <- <-. cbn [logged set_LastKnownIP LastKnownIP] in *.
      destruct (String.eqb_spec ip (LastKnownIP config)); [congruence |].
      now destruct (LastKnownIP config =? "")%string.
    + unfold checkIP in Hcheck. rewrite Hfetch, Hlock in Hcheck. discriminate.
Qed.

Lemma app_one_neq {A : Type} (l : list A) (x : A) : (l ++ [x])%list <> l.
Proof.
  intros H. apply (f_equal (@List.length A)) in H.
  rewrite length_app in H. cbn in H. lia.
Qed.

(** X18 — What a silent check means.  A check that returns adds no line
    exactly when its fetch succeeded with the cached string; the
    configuration is then unchanged.  So every failed fetch is reported. *)
Theorem checkIP_silent_iff config p config' p' :
  checkIP json_Unmarshal server config p = Some (config', p') ->
  (logged p' = logged p <->
   exists net,
     fetchExternalIP json_Unmarshal server
       (IPEndpoint config) 1 (MaxRetries config) (requests p)
     = ((LastKnownIP config, None), net))
  /\ (logged p' = logged p -> config' = config).
Proof.
  intros Hcheck.
  destruct (fetchExternalIP json_Unmarshal server
              (IPEndpoint config) 1 (MaxRetries config) (requests p))
    as [[ip [e |]] net] eqn:Hfetch.
  - rewrite (checkIP_fetch_failed _ _ _ _ _ _ _ Hfetch) in Hcheck.
    injection Hcheck as <- <-. cbn [logged]. split; [split |].
    + intros H. now apply app_one_neq in H.
    + intros [net' H]. discriminate.
    + reflexivity.
  - destruct (LastKnownIPLock config) eqn:Hlock.
    + rewrite (checkIP_fetch_ok _ _ _ _ _ _ Hlock Hfetch) in Hcheck.
      injection Hcheck as <- <-. cbn [logged].
      destruct (String.eqb_spec ip (LastKnownIP config)) as [-> | Hne].
      * split; [split |]; [eauto | reflexivity | intros _; apply set_LastKnownIP_same].
      * destruct (LastKnownIP config =? "")%string;
          (split; [split |];
           [ intros H; now apply app_one_neq in H
           | intros [net' H]; congruence
           | intros H; now apply app_one_neq in H ]).
    + unfold checkIP in Hcheck. rewrite Hfetch, Hlock in Hcheck. discriminate.
Qed.

Lemma checks_keep (n : nat) : forall config p,
  LastKnownIPLock config = Unlocked ->
  exists config' p' lines,
    checks json_Unmarshal server n config p = Some (config', p') /\
    config' = set_LastKnownIP (LastKnownIP config') config /\
    logged p' = (logged p ++ lines)%list /\
    (List.length lines <= n)%nat /\
    (requests p <= requests p' <= requests p + n * Z.to_nat (MaxRetries config))%nat.
Proof.
  induction n as [| n IH]; intros config p Hlock; cbn [checks].
  - exists config, p, []. rewrite set_LastKnownIP_same, app_nil_r.
    repeat split; trivial; cbn; lia.
  - destruct (checkIP_step config p Hlock)
      as (config1 & p1 & lines1 & -> & Hframe1 & Hlog1 & Hlen1 & Hreq1).
    assert (Hlock1 : LastKnownIPLock config1 = Unlocked) by (rewrite Hframe1; exact Hlock).
    assert (Hretries : MaxRetries config1 = MaxRetries config) by (now rewrite Hframe1).
    destruct (IH config1 p1 Hlock1)
      as (config2 & p2 & lines2 & Hchecks & Hframe2 & Hlog2 & Hlen2 & Hreq2).
    exists config2, p2, (lines1 ++ lines2)%list.
    split; [exact Hchecks |]. split.
    + rewrite Hframe2, Hframe1. reflexivity.
    + rewrite Hlog2, Hlog1, app_assoc, length_app, Hretries in *.
      split; [reflexivity |]. split; lia.
Qed.

(** X8 — Any number of checks.  From a free mutex, [n] checks in a row all
    return; they leave [Interval], [LogFile], [IPEndpoint], [QuietMode],
    [MaxRetries] and the mutex as they were, keep the lines logged before,
    add at most [n] lines and issue at most [n * MaxRetries] requests. *)
Theorem checks_invariant (n : nat) config p :
  LastKnownIPLock config = Unlocked ->
  exists config' p' lines,
    checks json_Unmarshal server n config p = Some (config', p') /\
    Interval config' = Interval config /\
    LogFile config' = LogFile config /\
    IPEndpoint config' = IPEndpoint config /\
    QuietMode config' = QuietMode config /\
    MaxRetries config' = MaxRetries config /\
    LastKnownIPLock config' = Unlocked /\
    logged p' = (logged p ++ lines)%list /\
    (List.length lines <= n)%nat /\
    (requests p <= requests p' <= requests p + n * Z.to_nat (MaxRetries config))%nat.
Proof.
  intros Hlock.
  destruct (checks_keep n config p Hlock)
    as (config' & p' & lines & Hchecks & Hframe & Hlog & Hlen & Hreq).
  exists config', p', lines. rewrite Hframe at 2 3 4 5 6 7.
  cbn [set_LastKnownIP Interval LogFile IPEndpoint QuietMode MaxRetries LastKnownIPLock].
  repeat (split; [solve [trivial] |]). exact Hreq.
Qed.

(** X9 — An empty answer resets the Watcher.  From an empty cache, three
    checks whose fetches return [a], the empty string and [b], with [a] and
    [b] not empty, log "Current external IP: a", "IP changed: a -> " and
    "Current external IP: b": the empty string counts as a change, and the
    address after it is announced as a first observation, also when [b] is
    [a] again. *)
Theorem empty_result_resets config p a b n1 n2 n3 :
  LastKnownIP config = "" ->
  LastKnownIPLock config = Unlocked ->
  a <> "" ->
  b <> "" ->
  fetchExternalIP json_Unmarshal server (IPEndpoint config) 1 (MaxRetries config) (requests p)
  = ((a, None), n1) ->
  fetchExternalIP json_Unmarshal server (IPEndpoint config) 1 (MaxRetries config) n1
  = (("", None), n2) ->
  fetchExternalIP json_Unmarshal server (IPEndpoint config) 1 (MaxRetries config) n2
  = ((b, None), n3) ->
  checks json_Unmarshal server 3 config p
  = Some (set_LastKnownIP b config,
          mkProcess n3 (logged p ++ ["Current external IP: " ++ a;
                                     "IP changed: " ++ a ++ " -> ";
                                     "Current external IP: " ++ b])).
Proof.
  intros Hempty Hlock Ha Hb H1 H2 H3. cbn [checks].
  rewrite (checkIP_fetch_ok _ _ _ _ _ _ Hlock H1). rewrite Hempty.
  apply String.eqb_neq in Ha. rewrite Ha. cbn [String.eqb].
  rewrite (checkIP_fetch_ok _ _ (set_LastKnownIP a config) _ "" n2)
    by (cbn; assumption).
  cbn [set_LastKnownIP LastKnownIP logged].
  rewrite String.eqb_sym in Ha. rewrite Ha. rewrite String.eqb_sym in Ha. rewrite Ha.
  rewrite (checkIP_fetch_ok _ _ _ _ b n3) by (cbn; assumption).
  cbn [set_LastKnownIP LastKnownIP logged Interval LogFile IPEndpoint QuietMode
       MaxRetries LastKnownIPLock].
  apply String.eqb_neq in Hb. rewrite Hb. cbn [String.eqb].
  rewrite <- !app_assoc. cbn [app]. now rewrite append_empty_r.
Qed.

(** X10 — No escalation.  Against an endpoint whose requests all fail,
    with a budget of at least one, [n] checks in a row issue exactly
    [n * MaxRetries] requests, leave the configuration as it was, and add
    exactly [n] lines, each an "Error checking IP: " line that names the
    budget. *)
Theorem checks_all_failing (n : nat) : forall config p,
  1 <= MaxRetries config ->
  (forall i, attemptFails (server (IPEndpoint config) i) = true) ->
  exists lines,
    checks json_Unmarshal server n config p
    = Some (config,
            mkProcess (requests p + n * Z.to_nat (MaxRetries config))
                      (logged p ++ lines)) /\
    List.length lines = n /\
    Forall (fun line =>
              String.prefix "Error checking IP: " line = true /\
              Contains line (itoa (MaxRetries config) ++ " attempts") = true) lines.
Proof.
  induction n as [| n IH]; intros config p Hbudget Hfail; cbn [checks].
  - exists []. rewrite app_nil_r, Nat.add_0_r. destruct p. repeat split. constructor.
  - pose proof (fetch_exhausts json_Unmarshal server (IPEndpoint config) 1
                  (MaxRetries config) (requests p) Hbudget
                  (fun i _ => Hfail (requests p + i)%nat)) as Hfetch.
    replace (MaxRetries config - 1 + 1) with (MaxRetries config) in Hfetch by lia.
    match type of Hfetch with
    | context [exhaustedRetries ?m ?r] => set (e := exhaustedRetries m r) in *
    end.
    rewrite (checkIP_fetch_failed _ _ _ _ _ _ _ Hfetch).
    destruct (IH config
                (mkProcess (requests p + Z.to_nat (MaxRetries config))
                           (logged p ++ ["Error checking IP: " ++ Error e]))
                Hbudget Hfail) as (lines & Hchecks & Hlen & Hlines).
    exists (("Error checking IP: " ++ Error e) :: lines).
    rewrite Hchecks. cbn [requests logged]. split; [| split].
    + rewrite <- app_assoc. cbn [app].
      replace (requests p + Z.to_nat (MaxRetries config) + n * Z.to_nat (MaxRetries config))%nat
        with (requests p + S n * Z.to_nat (MaxRetries config))%nat by lia.
      reflexivity.
    + cbn. now rewrite Hlen.
    + constructor; [| exact Hlines]. split.
      * apply prefix_append.
      * apply Contains_prepend. apply exhaustedRetries_mentions.
Qed.

(** X11 — The intervals the ticker accepts.  [startIPChecker] multiplies
    the interval by [time.Second] in 64-bit arithmetic and hands the product
    to [time.NewTicker], which panics unless it is positive.  From a free
    mutex, every interval from 1 to 9223372036 seconds gets through every
    tick; an interval from -9223372036 to 0, and one from 9223372037 to
    18446744073, whose product wraps around to a negative number, stops
    [startIPChecker] before its first check. *)
Theorem startIPChecker_interval (ticks : nat) config p :
  (1 <= Interval config <= 9223372036 ->
   LastKnownIPLock config = Unlocked ->
   exists config' p', startIPChecker json_Unmarshal server ticks config p = Some (config', p'))
  /\
  (- 9223372036 <= Interval config <= 0 \/ 9223372037 <= Interval config <= 18446744073 ->
   startIPChecker json_Unmarshal server ticks config p = None).
Proof.
  unfold startIPChecker, Second. split.
  - intros Hrange Hlock.
    rewrite wrapInt_in_range by (unfold MinInt, MaxInt; lia).
    destruct (Z.leb_spec (Interval config * 1000000000) 0); [lia |].
    destruct (checks_return json_Unmarshal server (S ticks) config p Hlock)
      as (config' & p' & Hchecks & _).
    eauto.
  - intros [Hrange | Hrange].
    + rewrite wrapInt_in_range by (unfold MinInt, MaxInt; lia).
      destruct (Z.leb_spec (Interval config * 1000000000) 0); [reflexivity | lia].
    + rewrite wrapInt_above by (unfold MaxInt; lia).
      destruct (Z.leb_spec (Interval config * 1000000000 - 2 ^ 64) 0); [reflexivity | lia].
Qed.

End WatcherMore.

(** ** Start-up *)

Section StartupFacts.

Variable json_Unmarshal : string -> IPifyResponse -> IPifyResponse * option error.
Variable server : string -> nat -> GetResult.
Variable filepath_Dir : string -> string.
Variable os_MkdirAll : string -> option error.
Variable os_OpenFile : string -> option error.

(** The output [setupLogging] chooses, by the three cases of the source. *)
Lemma setupLogging_output config lg :
  setupLogging filepath_Dir os_MkdirAll os_OpenFile config log_std = inl lg ->
  written lg = [] /\
  out lg =
  if (LogFile config =? "")%string then StreamWriter Stderr
  else if QuietMode config then StreamWriter (File (LogFile config))
       else MultiWriter [StreamWriter Stdout; StreamWriter (File (LogFile config))].
Proof.
  unfold setupLogging.
  destruct (LogFile config =? "")%string; cbn [negb].
  - intros [= <-]. split; reflexivity.
  - destruct (os_MkdirAll (filepath_Dir (LogFile config))); [discriminate |].
    destruct (os_OpenFile (LogFile config)); [discriminate |].
    destruct (QuietMode config); intros [= <-]; split; reflexivity.
Qed.

(** A failed set-up has written to [os.Stderr] only. *)
Lemma setupLogging_exit_written config code lg :
  setupLogging filepath_Dir os_MkdirAll os_OpenFile config log_std = inr (code, lg) ->
  exists text, written lg = [(Stderr, text)].
Proof.
  unfold setupLogging.
  destruct (negb (LogFile config =? "")%string); [| discriminate].
  destruct (os_MkdirAll (filepath_Dir (LogFile config))) as [err |].
  - intros [= <- <-]. eexists. reflexivity.
  - destruct (os_OpenFile (LogFile config)) as [err |].
    + intros [= <- <-]. eexists. reflexivity.
    + destruct (QuietMode config); discriminate.
Qed.

(** X12 — Where the log lines go.  After a successful [setupLogging] on
    the standard logger, a line goes to [os.Stderr] exactly when no log file
    is configured, to the log file exactly when one is, and to [os.Stdout]
    exactly when a log file is configured and [QuietMode] is off.  So
    [QuietMode] without a log file silences nothing, and without a log file
    nothing reaches [os.Stdout]. *)
Theorem setupLogging_destinations config lg line :
  setupLogging filepath_Dir os_MkdirAll os_OpenFile config log_std = inl lg ->
  forall f,
    In (f, line) (Write (out lg) line) <->
    (f = Stderr /\ LogFile config = "") \/
    (f = File (LogFile config) /\ LogFile config <> "") \/
    (f = Stdout /\ LogFile config <> "" /\ QuietMode config = false).
Proof.
  intros Hsetup f. destruct (setupLogging_output config lg Hsetup) as [_ ->].
  destruct (String.eqb_spec (LogFile config) "") as [Hnone | Hsome].
  - cbn. split.
    + intros [[= <-] | []]. auto.
    + intros [[-> _] | [[_ H] | [_ [H _]]]]; [auto | contradiction | contradiction].
  - destruct (QuietMode config); cbn; split.
    + intros [[= <-] | []]. auto.
    + intros [[_ H] | [[-> _] | [_ [_ H]]]]; [contradiction | auto | discriminate].
    + intros [[= <-] | [[= <-] | []]]; auto.
    + intros [[_ H] | [[-> _] | [-> _]]]; [contradiction | auto | auto].
Qed.

(** X13 — When logging cannot be set up.  [setupLogging] ends the process
    only when a log file is configured, always with status 1, after one line
    on [os.Stderr]: "Failed to create log directory" when [os.MkdirAll] fails
    (the file is then not opened), "Failed to open log file" when only
    [os.OpenFile] fails. *)
Theorem setupLogging_exit config code lg :
  setupLogging filepath_Dir os_MkdirAll os_OpenFile config log_std = inr (code, lg) ->
  code = 1 /\ LogFile config <> "" /\
  exists err,
    (os_MkdirAll (filepath_Dir (LogFile config)) = Some err /\
     written lg = [(Stderr, "Failed to create log directory: " ++ Error err)])
    \/
    (os_MkdirAll (filepath_Dir (LogFile config)) = None /\
     os_OpenFile (LogFile config) = Some err /\
     written lg = [(Stderr, "Failed to open log file: " ++ Error err)]).
Proof.
  unfold setupLogging.
  destruct (String.eqb_spec (LogFile config) "") as [Hnone | Hsome]; cbn [negb];
    [discriminate |].
  destruct (os_MkdirAll (filepath_Dir (LogFile config))) as [err |].
  - intros [= <- <-]. split; [reflexivity |]. split; [assumption |].
    exists err. left. split; [reflexivity |]. cbn. now rewrite append_empty_r.
  - destruct (os_OpenFile (LogFile config)) as [err |].
    + intros [= <- <-]. split; [reflexivity |]. split; [assumption |].
      exists err. right. split; [reflexivity |]. split; [reflexivity |].
      cbn. now rewrite append_empty_r.
    + destruct (QuietMode config); discriminate.
Qed.

(** [main] once [setupLogging] has succeeded. *)
Lemma main_after_setup parsed ticks lg0 :
  setupLogging filepath_Dir os_MkdirAll os_OpenFile (parseFlags parsed) log_std = inl lg0 ->
  main json_Unmarshal server filepath_Dir os_MkdirAll os_OpenFile parsed ticks
  = match startIPChecker json_Unmarshal server ticks (parseFlags parsed)
            (mkProcess 0 [startLine (parseFlags parsed)]) with
    | Some (config, p) => Running config (requests p) (log_all (logged p) lg0)
    | None => Halted (log_all [startLine (parseFlags parsed)] lg0)
    end.
Proof.
  intros Hsetup. unfold main. rewrite Hsetup.
  unfold logMessage, startLine. cbn [requests logged app].
  reflexivity.
Qed.

(** X14 — An interval the ticker refuses.  When logging is set up and the
    interval, in nanoseconds and 64 bits, is not positive, [main] logs its
    starting line and stops in [startIPChecker] without a single check,
    whatever the number of ticks waited for. *)
Theorem main_halts parsed ticks lg0 :
  setupLogging filepath_Dir os_MkdirAll os_OpenFile (parseFlags parsed) log_std = inl lg0 ->
  wrapInt (flag_interval parsed * Second) <= 0 ->
  main json_Unmarshal server filepath_Dir os_MkdirAll os_OpenFile parsed ticks
  = Halted (log_all ["IP Watcher starting. Will check IP every "
                     ++ itoa (flag_interval parsed) ++ " seconds"] lg0).
Proof.
  intros Hsetup Hinterval. rewrite (main_after_setup _ _ _ Hsetup).
  unfold startIPChecker. cbn [parseFlags Interval].
  destruct (Z.leb_spec (wrapInt (flag_interval parsed * Second)) 0); [| lia].
  reflexivity.
Qed.

(** X15 — A run that gets going.  When logging is set up and the interval
    is one the ticker accepts, [main] is running at every tick: the first
    line logged is the starting line, at most one line a check follows, at
    most [MaxRetries] requests a check were issued, and the configuration is
    the one parsed from the flags but for [LastKnownIP]. *)
Theorem main_runs parsed ticks lg0 :
  setupLogging filepath_Dir os_MkdirAll os_OpenFile (parseFlags parsed) log_std = inl lg0 ->
  0 < wrapInt (flag_interval parsed * Second) ->
  exists config n lines,
    main json_Unmarshal server filepath_Dir os_MkdirAll os_OpenFile parsed ticks
    = Running config n
        (log_all (("IP Watcher starting. Will check IP every "
                   ++ itoa (flag_interval parsed) ++ " seconds") :: lines) lg0) /\
    config = set_LastKnownIP (LastKnownIP config) (parseFlags parsed) /\
    (List.length lines <= S ticks)%nat /\
    (n <= S ticks * Z.to_nat (flag_max_retries parsed))%nat.
Proof.
  intros Hsetup Hinterval. rewrite (main_after_setup _ _ _ Hsetup).
  unfold startIPChecker. cbn [parseFlags Interval].
  destruct (Z.leb_spec (wrapInt (flag_interval parsed * Second)) 0); [lia |].
  destruct (checks_keep json_Unmarshal server (S ticks) (parseFlags parsed)
              (mkProcess 0 [startLine (parseFlags parsed)]) eq_refl)
    as (config & p & lines & Hchecks & Hframe & Hlog & Hlen & Hreq).
  fold (parseFlags parsed). rewrite Hchecks.
  exists config, (requests p), lines. rewrite Hlog.
  cbn [logged requests parseFlags MaxRetries] in *.
  repeat split; trivial. lia.
Qed.

(** X16 — The first check of a run.  The cache starts empty whatever the
    flags: when the first fetch of a run succeeds with an address that is not
    empty, the run has logged its starting line and then "Current external
    IP" with that address. *)
Theorem main_first_check parsed lg0 ip n :
  setupLogging filepath_Dir os_MkdirAll os_OpenFile (parseFlags parsed) log_std = inl lg0 ->
  0 < wrapInt (flag_interval parsed * Second) ->
  fetchExternalIP json_Unmarshal server (flag_endpoint parsed) 1 (flag_max_retries parsed) 0
  = ((ip, None), n) ->
  ip <> "" ->
  main json_Unmarshal server filepath_Dir os_MkdirAll os_OpenFile parsed 0
  = Running (set_LastKnownIP ip (parseFlags parsed)) n
      (log_all ["IP Watcher starting. Will check IP every "
                ++ itoa (flag_interval parsed) ++ " seconds";
                "Current external IP: " ++ ip] lg0).
Proof.
  intros Hsetup Hinterval Hfetch Hip. rewrite (main_after_setup _ _ _ Hsetup).
  unfold startIPChecker. cbn [parseFlags Interval].
  destruct (Z.leb_spec (wrapInt (flag_interval parsed * Second)) 0); [lia |].
  fold (parseFlags parsed). cbn [checks].
  rewrite (checkIP_fetch_ok json_Unmarshal server (parseFlags parsed)
             (mkProcess 0 [startLine (parseFlags parsed)]) ip n eq_refl Hfetch).
  cbn [parseFlags LastKnownIP requests logged].
  apply String.eqb_neq in Hip. rewrite Hip. reflexivity.
Qed.

(** X19 — No check without a log.  When a log file is configured and its
    directory cannot be created, or the directory can and the file cannot be
    opened, [main] exits with status 1 having written one "Failed to ..." line
    to [os.Stderr]: no starting line, and no check at any tick. *)
Theorem main_exits parsed ticks err :
  flag_log parsed <> "" ->
  os_MkdirAll (filepath_Dir (flag_log parsed)) = Some err \/
  (os_MkdirAll (filepath_Dir (flag_log parsed)) = None /\
   os_OpenFile (flag_log parsed) = Some err) ->
  exists text,
    main json_Unmarshal server filepath_Dir os_MkdirAll os_OpenFile parsed ticks
    = Exited 1 (mkLogger (StreamWriter Stderr) [(Stderr, text)]) /\
    (text = "Failed to create log directory: " ++ Error err \/
     text = "Failed to open log file: " ++ Error err).
Proof.
  intros Hlog Hdisk. unfold main, setupLogging. cbn [parseFlags LogFile QuietMode].
  apply String.eqb_neq in Hlog. rewrite Hlog. cbn [negb].
  destruct Hdisk as [Hmkdir | [Hmkdir Hopen]]; rewrite Hmkdir; [| rewrite Hopen];
    eexists; (split; [reflexivity |]); cbn; rewrite append_empty_r; auto.
Qed.

Lemma In_log_all_stream f messages g line :
  In (g, line) (flat_map (Write (StreamWriter f)) messages) <-> g = f /\ In line messages.
Proof.
  rewrite in_flat_map. cbn. split.
  - intros (m & Hm & [[= <- <-] | []]). auto.
  - intros [-> Hm]. exists line. auto.
Qed.

Lemma In_log_all_pair f1 f2 messages g line :
  In (g, line) (flat_map (Write (MultiWriter [StreamWriter f1; StreamWriter f2])) messages)
  <-> (g = f1 \/ g = f2) /\ In line messages.
Proof.
  rewrite in_flat_map. cbn. split.
  - intros (m & Hm & [[= <- <-] | [[= <- <-] | []]]); auto.
  - intros [[-> | ->] Hm]; exists line; auto.
Qed.

(** X17 — What reaches [os.Stdout].  In every run, a line is written to
    [os.Stdout] only when a log file is configured and [QuietMode] is off,
    and then the same line is written to the log file; without a log file,
    nothing is ever written to [os.Stdout]. *)
Theorem main_stdout parsed ticks line :
  In (Stdout, line)
     (written (run_logger
                 (main json_Unmarshal server filepath_Dir os_MkdirAll os_OpenFile
                       parsed ticks))) ->
  flag_log parsed <> "" /\ flag_quiet parsed = false /\
  In (File (flag_log parsed), line)
     (written (run_logger
                 (main json_Unmarshal server filepath_Dir os_MkdirAll os_OpenFile
                       parsed ticks))).
Proof.
  destruct (setupLogging filepath_Dir os_MkdirAll os_OpenFile (parseFlags parsed) log_std)
    as [lg0 | [code lg]] eqn:Hsetup.
  - rewrite (main_after_setup _ _ _ Hsetup).
    destruct (setupLogging_output _ _ Hsetup) as [Hwritten Hout].
    cbn [parseFlags LogFile QuietMode] in Hout.
    assert (Hall : forall messages,
               In (Stdout, line) (written (log_all messages lg0)) ->
               flag_log parsed <> "" /\ flag_quiet parsed = false /\
               In (File (flag_log parsed), line) (written (log_all messages lg0))).
    { intros messages. unfold log_all. cbn [written]. rewrite Hwritten, Hout. cbn [app].
      destruct (String.eqb_spec (flag_log parsed) "") as [Hnone | Hsome].
      - rewrite In_log_all_stream. intros [[=] _].
      - destruct (flag_quiet parsed).
        + rewrite In_log_all_stream. intros [[=] _].
        + rewrite !In_log_all_pair. intros [_ Hm]. auto. }
    destruct (startIPChecker json_Unmarshal server ticks (parseFlags parsed)
                (mkProcess 0 [startLine (parseFlags parsed)])) as [[config p] |];
      cbn [run_logger]; apply Hall.
  - unfold main. rewrite Hsetup. cbn [run_logger].
    destruct (setupLogging_exit_written _ _ _ Hsetup) as [text ->].
    intros [[=] | []].
Qed.

End StartupFacts.

(** ** The further properties applied to concrete runs *)

Example cleanDir_examples :
  cleanDir "/var/log/ip-watcher/ip.log" = "/var/log/ip-watcher" /\
  cleanDir "/ip.log" = "/" /\
  cleanDir "ip.log" = ".".
Proof. repeat split. Qed.

(** X2 on the server that fails twice. *)
Lemma fetch_success_inv_run :
  fetchExternalIP encoding_json.Unmarshal failTwiceServer "http://127.0.0.1:8080" 1 5 0
  = (("192.168.1.100", None), 3%nat) /\
  exists resp body,
    (0 < 3)%nat /\
    (forall i, (0 <= i < 3 - 1)%nat ->
               attemptFails (failTwiceServer "http://127.0.0.1:8080" i) = true) /\
    failTwiceServer "http://127.0.0.1:8080" (3 - 1) = GetResponse resp /\
    200 <= StatusCode resp < 300 /\
    Body resp = (body, None) /\
    "192.168.1.100" = parseBody encoding_json.Unmarshal body.
Proof.
  assert (Hrun : fetchExternalIP encoding_json.Unmarshal failTwiceServer
                   "http://127.0.0.1:8080" 1 5 0 = (("192.168.1.100", None), 3%nat))
    by reflexivity.
  split; [exact Hrun |].
  exact (fetch_success_inv encoding_json.Unmarshal failTwiceServer
           "http://127.0.0.1:8080" 1 5 0 "192.168.1.100" 3%nat Hrun).
Defined.

(** X3 on the server that always answers 500, entered at the third attempt
    of five. *)
Lemma fetch_reports_budget_run :
  3 <= 5 /\
  (forall i, (i < Z.to_nat (5 - 3 + 1))%nat ->
             attemptFails (alwaysFailServer "http://127.0.0.1:8080" (0 + i)) = true) /\
  exists e,
    fetchExternalIP encoding_json.Unmarshal alwaysFailServer "http://127.0.0.1:8080" 3 5 0
    = (("", Some e), (0 + Z.to_nat (5 - 3 + 1))%nat) /\
    Contains (Error e) (itoa 5 ++ " attempts") = true.
Proof.
  split; [lia |]. split; [intros i Hi; reflexivity |].
  apply (fetch_reports_budget encoding_json.Unmarshal alwaysFailServer
           "http://127.0.0.1:8080" 3 5 0); [lia | intros i Hi; reflexivity].
Defined.

(** X4 on the server that fails twice and its noisy double. *)
Lemma fetch_local_run :
  (forall i,
      (0 <= i < snd (fetchExternalIP encoding_json.Unmarshal failTwiceServer
                       "http://127.0.0.1:8080" 1 5 0))%nat ->
      sameForFetcher (failTwiceServer "http://127.0.0.1:8080" i)
                     (noisyFailTwiceServer "http://127.0.0.1:8080" i)) /\
  fetchExternalIP encoding_json.Unmarshal failTwiceServer "http://127.0.0.1:8080" 1 5 0
  = fetchExternalIP encoding_json.Unmarshal noisyFailTwiceServer "http://127.0.0.1:8080" 1 5 0.
Proof.
  assert (Hsame : forall i,
             (0 <= i < snd (fetchExternalIP encoding_json.Unmarshal failTwiceServer
                              "http://127.0.0.1:8080" 1 5 0))%nat ->
             sameForFetcher (failTwiceServer "http://127.0.0.1:8080" i)
                            (noisyFailTwiceServer "http://127.0.0.1:8080" i)).
  { change (snd (fetchExternalIP encoding_json.Unmarshal failTwiceServer
                   "http://127.0.0.1:8080" 1 5 0)) with 3%nat.
    intros [| [| [| i]]] Hi; [| | | lia]; cbn; (split; [reflexivity |]); intros; (lia || auto). }
  split; [exact Hsame |].
  exact (fetch_local encoding_json.Unmarshal failTwiceServer noisyFailTwiceServer
           "http://127.0.0.1:8080" 1 5 0 Hsame).
Defined.

(** X5 with a budget of zero. *)
Lemma checkIP_without_budget_run :
  let config := mkConfig 60 "" "https://api64.ipify.org?format=json" false 0 "" Unlocked in
  MaxRetries config < 1 /\
  checkIP encoding_json.Unmarshal changingServer config (mkProcess 0 [])
  = Some (config,
          mkProcess 0 ["Error checking IP: failed to make request after 0 attempts"]).
Proof.
  intros config. split; [cbn; lia |].
  apply (checkIP_without_budget encoding_json.Unmarshal changingServer config (mkProcess 0 [])).
  cbn. lia.
Defined.

(** X6 on the check that finds a new address. *)
Lemma checkIP_appends_run :
  let config := set_LastKnownIP "192.168.0.1" defaultConfig in
  let p := mkProcess 2 ["Current external IP: 192.168.0.1"] in
  let config' := set_LastKnownIP "192.168.0.2" defaultConfig in
  let p' := mkProcess 3 ["Current external IP: 192.168.0.1";
                         "IP changed: 192.168.0.1 -> 192.168.0.2"] in
  checkIP encoding_json.Unmarshal changingServer config p = Some (config', p') /\
  exists lines,
    logged p' = (logged p ++ lines)%list /\
    (List.length lines <= 1)%nat /\
    (requests p <= requests p' <= requests p + Z.to_nat (MaxRetries config))%nat.
Proof.
  intros config p config' p'.
  assert (Hrun : checkIP encoding_json.Unmarshal changingServer config p = Some (config', p'))
    by reflexivity.
  split; [exact Hrun |].
  exact (checkIP_appends encoding_json.Unmarshal changingServer config p config' p' Hrun).
Defined.

(** X7 on the same check. *)
Lemma checkIP_change_is_logged_run :
  let config := set_LastKnownIP "192.168.0.1" defaultConfig in
  let p := mkProcess 2 ["Current external IP: 192.168.0.1"] in
  let config' := set_LastKnownIP "192.168.0.2" defaultConfig in
  let p' := mkProcess 3 ["Current external IP: 192.168.0.1";
                         "IP changed: 192.168.0.1 -> 192.168.0.2"] in
  checkIP encoding_json.Unmarshal changingServer config p = Some (config', p') /\
  LastKnownIP config' <> LastKnownIP config /\
  logged p' = (logged p ++ ["IP changed: 192.168.0.1 -> 192.168.0.2"])%list.
Proof.
  intros config p config' p'.
  assert (Hrun : checkIP encoding_json.Unmarshal changingServer config p = Some (config', p'))
    by reflexivity.
  assert (Hchanged : LastKnownIP config' <> LastKnownIP config) by discriminate.
  split; [exact Hrun |]. split; [exact Hchanged |].
  exact (checkIP_change_is_logged encoding_json.Unmarshal changingServer
           config p config' p' Hrun Hchanged).
Defined.

(** X8 on three checks of the server whose address changes. *)
Lemma checks_invariant_run :
  LastKnownIPLock defaultConfig = Unlocked /\
  exists config' p' lines,
    checks encoding_json.Unmarshal changingServer 3 defaultConfig (mkProcess 0 [])
    = Some (config', p') /\
    Interval config' = Interval defaultConfig /\
    LogFile config' = LogFile defaultConfig /\
    IPEndpoint config' = IPEndpoint defaultConfig /\
    QuietMode config' = QuietMode defaultConfig /\
    MaxRetries config' = MaxRetries defaultConfig /\
    LastKnownIPLock config' = Unlocked /\
    logged p' = (logged (mkProcess 0 []) ++ lines)%list /\
    (List.length lines <= 3)%nat /\
    (requests (mkProcess 0 []) <= requests p'
     <= requests (mkProcess 0 []) + 3 * Z.to_nat (MaxRetries defaultConfig))%nat.
Proof.
  split; [reflexivity |].
  exact (checks_invariant encoding_json.Unmarshal changingServer 3 defaultConfig
           (mkProcess 0 []) eq_refl).
Defined.

(** X9 on the server whose second answer is empty. *)
Lemma empty_result_resets_run :
  let a := "192.168.0.1" in
  (LastKnownIP defaultConfig = "" /\ LastKnownIPLock defaultConfig = Unlocked /\ a <> "") /\
  checks encoding_json.Unmarshal blinkingServer 3 defaultConfig (mkProcess 0 [])
  = Some (set_LastKnownIP a defaultConfig,
          mkProcess 3 ["Current external IP: 192.168.0.1";
                       "IP changed: 192.168.0.1 -> ";
                       "Current external IP: 192.168.0.1"]).
Proof.
  intros a.
  assert (Ha : a <> "") by discriminate.
  split; [repeat split; trivial |].
  apply (empty_result_resets encoding_json.Unmarshal blinkingServer defaultConfig
           (mkProcess 0 []) a a 1%nat 2%nat 3%nat eq_refl eq_refl Ha Ha); reflexivity.
Defined.

(** X10 on two checks of the server that always answers 500. *)
Lemma checks_all_failing_run :
  1 <= MaxRetries defaultConfig /\
  (forall i, attemptFails (alwaysFailServer (IPEndpoint defaultConfig) i) = true) /\
  exists lines,
    checks encoding_json.Unmarshal alwaysFailServer 2 defaultConfig (mkProcess 0 [])
    = Some (defaultConfig,
            mkProcess (0 + 2 * Z.to_nat (MaxRetries defaultConfig)) ([] ++ lines)) /\
    List.length lines = 2%nat /\
    Forall (fun line =>
              String.prefix "Error checking IP: " line = true /\
              Contains line (itoa (MaxRetries defaultConfig) ++ " attempts") = true) lines.
Proof.
  split; [cbn; lia |]. split; [intros i; reflexivity |].
  apply (checks_all_failing encoding_json.Unmarshal alwaysFailServer 2 defaultConfig
           (mkProcess 0 [])); [cbn; lia | intros i; reflexivity].
Defined.

(** X11 on the default interval and on an interval of zero. *)
Lemma startIPChecker_interval_run :
  (1 <= Interval defaultConfig <= 9223372036 /\
   exists config' p',
     startIPChecker encoding_json.Unmarshal changingServer 2 defaultConfig (mkProcess 0 [])
     = Some (config', p'))
  /\
  (- 9223372036 <= Interval (parseFlags zeroIntervalFlags) <= 0 /\
   startIPChecker encoding_json.Unmarshal changingServer 2 (parseFlags zeroIntervalFlags)
     (mkProcess 0 []) = None).
Proof.
  split.
  - assert (Hrange : 1 <= Interval defaultConfig <= 9223372036) by (cbn; lia).
    split; [exact Hrange |].
    destruct (startIPChecker_interval encoding_json.Unmarshal changingServer 2
                defaultConfig (mkProcess 0 [])) as [Hruns _].
    exact (Hruns Hrange eq_refl).
  - assert (Hrange : - 9223372036 <= Interval (parseFlags zeroIntervalFlags) <= 0)
      by (cbn; lia).
    split; [exact Hrange |].
    destruct (startIPChecker_interval encoding_json.Unmarshal changingServer 2
                (parseFlags zeroIntervalFlags) (mkProcess 0 [])) as [_ Hstops].
    exact (Hstops (or_introl Hrange)).
Defined.

(** X12 on a log file without [-quiet]. *)
Lemma setupLogging_destinations_run :
  let lg := mkLogger (MultiWriter [StreamWriter Stdout;
                                   StreamWriter (File "/var/log/ip-watcher/ip.log")]) [] in
  setupLogging cleanDir writableDisk writableDisk (parseFlags fileFlags) log_std = inl lg /\
  forall f,
    In (f, "Current external IP: 192.168.0.1")
       (Write (out lg) "Current external IP: 192.168.0.1") <->
    (f = Stderr /\ LogFile (parseFlags fileFlags) = "") \/
    (f = File (LogFile (parseFlags fileFlags)) /\ LogFile (parseFlags fileFlags) <> "") \/
    (f = Stdout /\ LogFile (parseFlags fileFlags) <> "" /\
     QuietMode (parseFlags fileFlags) = false).
Proof.
  intros lg.
  assert (Hsetup : setupLogging cleanDir writableDisk writableDisk
                     (parseFlags fileFlags) log_std = inl lg) by reflexivity.
  split; [exact Hsetup |].
  exact (setupLogging_destinations cleanDir writableDisk writableDisk
           (parseFlags fileFlags) lg "Current external IP: 192.168.0.1" Hsetup).
Defined.

(** X13 on a disk that refuses the directory. *)
Lemma setupLogging_exit_run :
  let lg := mkLogger (StreamWriter Stderr)
              [(Stderr, "Failed to create log directory: mkdir /var/log/ip-watcher: read-only file system")] in
  setupLogging cleanDir readOnlyDisk writableDisk (parseFlags fileFlags) log_std
  = inr (1, lg) /\
  1 = 1 /\ LogFile (parseFlags fileFlags) <> "" /\
  exists err,
    (readOnlyDisk (cleanDir (LogFile (parseFlags fileFlags))) = Some err /\
     written lg = [(Stderr, "Failed to create log directory: " ++ Error err)])
    \/
    (readOnlyDisk (cleanDir (LogFile (parseFlags fileFlags))) = None /\
     writableDisk (LogFile (parseFlags fileFlags)) = Some err /\
     written lg = [(Stderr, "Failed to open log file: " ++ Error err)]).
Proof.
  intros lg.
  assert (Hsetup : setupLogging cleanDir readOnlyDisk writableDisk
                     (parseFlags fileFlags) log_std = inr (1, lg)) by reflexivity.
  split; [exact Hsetup |].
  exact (setupLogging_exit cleanDir readOnlyDisk writableDisk
           (parseFlags fileFlags) 1 lg Hsetup).
Defined.

(** X14 on an interval of zero. *)
Lemma main_halts_run :
  setupLogging cleanDir writableDisk writableDisk (parseFlags zeroIntervalFlags) log_std
  = inl log_std /\
  wrapInt (flag_interval zeroIntervalFlags * Second) <= 0 /\
  main encoding_json.Unmarshal changingServer cleanDir writableDisk writableDisk
       zeroIntervalFlags 2
  = Halted (mkLogger (StreamWriter Stderr)
              [(Stderr, "IP Watcher starting. Will check IP every 0 seconds")]).
Proof.
  assert (Hinterval : wrapInt (flag_interval zeroIntervalFlags * Second) <= 0)
    by (vm_compute; discriminate).
  split; [reflexivity |]. split; [exact Hinterval |].
  exact (main_halts encoding_json.Unmarshal changingServer cleanDir writableDisk writableDisk
           zeroIntervalFlags 2 log_std eq_refl Hinterval).
Defined.

(** X15 on the default flags. *)
Lemma main_runs_run :
  setupLogging cleanDir writableDisk writableDisk (parseFlags defaultFlags) log_std
  = inl log_std /\
  0 < wrapInt (flag_interval defaultFlags * Second) /\
  exists config n lines,
    main encoding_json.Unmarshal changingServer cleanDir writableDisk writableDisk
         defaultFlags 2
    = Running config n
        (log_all (("IP Watcher starting. Will check IP every "
                   ++ itoa (flag_interval defaultFlags) ++ " seconds") :: lines) log_std) /\
    config = set_LastKnownIP (LastKnownIP config) (parseFlags defaultFlags) /\
    (List.length lines <= 3)%nat /\
    (n <= 3 * Z.to_nat (flag_max_retries defaultFlags))%nat.
Proof.
  assert (Hinterval : 0 < wrapInt (flag_interval defaultFlags * Second))
    by (vm_compute; reflexivity).
  split; [reflexivity |]. split; [exact Hinterval |].
  exact (main_runs encoding_json.Unmarshal changingServer cleanDir writableDisk writableDisk
           defaultFlags 2 log_std eq_refl Hinterval).
Defined.

(** X16 on a log file with [-quiet]. *)
Lemma main_first_check_run :
  let lg0 := mkLogger (StreamWriter (File "/var/log/ip-watcher/ip.log")) [] in
  setupLogging cleanDir writableDisk writableDisk (parseFlags quietFlags) log_std = inl lg0 /\
  0 < wrapInt (flag_interval quietFlags * Second) /\
  "192.168.0.1" <> "" /\
  main encoding_json.Unmarshal changingServer cleanDir writableDisk writableDisk quietFlags 0
  = Running (set_LastKnownIP "192.168.0.1" (parseFlags quietFlags)) 1
      (mkLogger (StreamWriter (File "/var/log/ip-watcher/ip.log"))
         [(File "/var/log/ip-watcher/ip.log",
           "IP Watcher starting. Will check IP every 60 seconds");
          (File "/var/log/ip-watcher/ip.log", "Current external IP: 192.168.0.1")]).
Proof.
  intros lg0.
  assert (Hinterval : 0 < wrapInt (flag_interval quietFlags * Second))
    by (vm_compute; reflexivity).
  assert (Hip : "192.168.0.1" <> "") by discriminate.
  split; [reflexivity |]. split; [exact Hinterval |]. split; [exact Hip |].
  exact (main_first_check encoding_json.Unmarshal changingServer cleanDir writableDisk
           writableDisk quietFlags lg0 "192.168.0.1" 1%nat eq_refl Hinterval eq_refl Hip).
Defined.

(** X17 on a log file without [-quiet]. *)
Lemma main_stdout_run :
  In (Stdout, "Current external IP: 192.168.0.1")
     (written (run_logger
                 (main encoding_json.Unmarshal changingServer cleanDir writableDisk
                       writableDisk fileFlags 0))) /\
  flag_log fileFlags <> "" /\ flag_quiet fileFlags = false /\
  In (File (flag_log fileFlags), "Current external IP: 192.168.0.1")
     (written (run_logger
                 (main encoding_json.Unmarshal changingServer cleanDir writableDisk
                       writableDisk fileFlags 0))).
Proof.
  assert (Hin : In (Stdout, "Current external IP: 192.168.0.1")
                   (written (run_logger
                      (main encoding_json.Unmarshal changingServer cleanDir writableDisk
                            writableDisk fileFlags 0)))).
  { vm_compute. auto. }
  split; [exact Hin |].
  exact (main_stdout encoding_json.Unmarshal changingServer cleanDir writableDisk
           writableDisk fileFlags 0 "Current external IP: 192.168.0.1" Hin).
Defined.

(** X1 on the server that fails twice. *)
Lemma fetch_requests_bounded_run :
  (0 <= snd (fetchExternalIP encoding_json.Unmarshal failTwiceServer
               "http://127.0.0.1:8080" 1 5 0) <= 0 + Z.to_nat (5 - 1 + 1))%nat /\
  (1 <= 5 ->
   (0 < snd (fetchExternalIP encoding_json.Unmarshal failTwiceServer
               "http://127.0.0.1:8080" 1 5 0))%nat).
Proof.
  exact (fetch_requests_bounded encoding_json.Unmarshal failTwiceServer
           "http://127.0.0.1:8080" 1 5 0).
Defined.

(** X18 on the second, silent, check of the server whose address changes. *)
Lemma checkIP_silent_iff_run :
  let config := set_LastKnownIP "192.168.0.1" defaultConfig in
  let p := mkProcess 1 ["Current external IP: 192.168.0.1"] in
  let p' := mkProcess 2 ["Current external IP: 192.168.0.1"] in
  checkIP encoding_json.Unmarshal changingServer config p = Some (config, p') /\
  (logged p' = logged p <->
   exists net,
     fetchExternalIP encoding_json.Unmarshal changingServer
       (IPEndpoint config) 1 (MaxRetries config) (requests p)
     = ((LastKnownIP config, None), net))
  /\ (logged p' = logged p -> config = config).
Proof.
  intros config p p'.
  assert (Hrun : checkIP encoding_json.Unmarshal changingServer config p = Some (config, p'))
    by reflexivity.
  split; [exact Hrun |].
  exact (checkIP_silent_iff encoding_json.Unmarshal changingServer config p config p' Hrun).
Defined.

(** X19 on a disk that refuses the directory. *)
Lemma main_exits_run :
  let err := errorString "mkdir /var/log/ip-watcher: read-only file system" in
  flag_log fileFlags <> "" /\
  readOnlyDisk (cleanDir (flag_log fileFlags)) = Some err /\
  exists text,
    main encoding_json.Unmarshal changingServer cleanDir readOnlyDisk writableDisk fileFlags 7
    = Exited 1 (mkLogger (StreamWriter Stderr) [(Stderr, text)]) /\
    (text = "Failed to create log directory: " ++ Error err \/
     text = "Failed to open log file: " ++ Error err).
Proof.
  intros err.
  assert (Hlog : flag_log fileFlags <> "") by discriminate.
  assert (Hdisk : readOnlyDisk (cleanDir (flag_log fileFlags)) = Some err) by reflexivity.
  split; [exact Hlog |]. split; [exact Hdisk |].
  exact (main_exits encoding_json.Unmarshal changingServer cleanDir readOnlyDisk writableDisk
           fileFlags 7 err Hlog (or_introl Hdisk)).
Defined.
